(** * JSON-stat2 decoding and table rendering (ssb-mcp-server/src/json-stat-parser.ts)

    A shallow embedding of [parseJsonStat2] and [formatTable] together with
    the properties of the decoder and the renderer.

    Modelling conventions.
    - A JS object used as a dictionary ([Record<string, _>], [DataRow]) is
      a finite map [gmap string _] of its own properties together with what
      it inherits: an object that comes out of [JSON.parse] inherits from
      [Object.prototype], and a row starts as the literal [{}], which does
      too.  Reading and assigning a property follow the prototype chain as
      ECMAScript prescribes (strict mode: the file is an ES module).
    - The numbers that take part in index arithmetic (sizes, strides, flat
      indices, category indices) are cardinalities: naturals, computed
      exactly, extended with the two special values [Infinity] and [NaN]
      that a division by a zero or by a missing stride produces.
    - The numeric payload of the value array is carried through the decoder
      unchanged; its type [num] and its locale formatting [formatNumber]
      ([Number.prototype.toLocaleString]) are parameters, and so is the text
      that the host prints for its built-in functions ([Host]).
    - A thrown [TypeError] is the result [None]. *)

From Stdlib Require Import ZArith List String Ascii Lia.
From Stdlib Require Import Sorting.Permutation Sorting.Sorted.
From stdpp Require Import base option list sorting gmap strings pretty.

Local Open Scope string_scope.
Local Open Scope list_scope.

(** ** JS numbers of the index arithmetic *)

Inductive number : Type :=
  | Fin (n : nat)
  | Infinity
  | NaN.

(** [Math.floor(a / b)], where [b] is read from an array and may be
    [undefined] ([None]). *)
Definition floorDiv (a : number) (b : option nat) : number :=
  match a, b with
  | Fin x, Some y =>
      if (y =? 0)%nat then (if (x =? 0)%nat then NaN else Infinity)
      else Fin (x / y)
  | Infinity, Some _ => Infinity
  | _, _ => NaN
  end.

(** [a % b]. *)
Definition remainder (a : number) (b : option nat) : number :=
  match a, b with
  | Fin x, Some y => if (y =? 0)%nat then NaN else Fin (x mod y)
  | _, _ => NaN
  end.

(** [String(n)] as used by the template literal. *)
Definition numberToString (n : number) : string :=
  match n with
  | Fin k => pretty k
  | Infinity => "Infinity"
  | NaN => "NaN"
  end.

(** [lines.join(sep)] *)
Fixpoint join (sep : string) (parts : list string) : string :=
  match parts with
  | [] => ""
  | [p] => p
  | p :: rest => p +:+ sep +:+ join sep rest
  end.

(** ** What a plain object inherits *)

(** The property names of [Object.prototype] (Node 18 and later). *)
Definition objectPrototypeKeys : list string :=
  [ "constructor"; "__defineGetter__"; "__defineSetter__"; "hasOwnProperty";
    "__lookupGetter__"; "__lookupSetter__"; "isPrototypeOf";
    "propertyIsEnumerable"; "toString"; "valueOf"; "__proto__";
    "toLocaleString" ].

(** The objects that a read of an inherited property can yield:
    [Object.prototype] itself (the accessor [__proto__]) and the built-in
    function stored in [Object.prototype] under a key ([constructor] is the
    function [Object]). *)
Inductive builtin : Type :=
  | ObjectPrototype
  | ObjectMethod (key : string).

(** [obj[key]] where [key] is not an own property of [obj] and [obj]
    inherits from [Object.prototype]; [None] is [undefined]. *)
Definition inheritedProperty (key : string) : option builtin :=
  if decide (key = "__proto__") then Some ObjectPrototype
  else if decide (key ∈ objectPrototypeKeys) then Some (ObjectMethod key)
  else None.

(** The accessors [arguments] and [caller] of [Function.prototype]: their
    getter and their setter throw. *)
Definition restrictedFunctionKeys : list string := ["arguments"; "caller"].

(** Whether an assignment of [key] to an object that inherits from the
    built-in function [f] is rejected: [length] and [name] of a built-in
    function and [prototype] of the constructor [Object] are not writable,
    [arguments] and [caller] throw.  Every other property on that chain is
    writable or absent. *)
Definition rejectedOnFunction (f key : string) : bool :=
  bool_decide (key ∈ ["length"; "name"])
  || bool_decide (key ∈ restrictedFunctionKeys)
  || (bool_decide (key = "prototype") && bool_decide (f = "constructor")).

(** ** Input: the JSON-stat2 response (ssb-client.ts) *)

(** [index: Record<string, number> | string[]].  The object form is given
    by its entries in [Object.entries] order. *)
Inductive CategoryIndex : Type :=
  | IndexArray (codes : list string)
  | IndexObject (entries : list (string * Z)).

(** [label] holds the own properties of the label object. *)
Record JsonStat2Category : Type := {
  cat_index : CategoryIndex;
  cat_label : gmap string string
}.

Record JsonStat2Dimension : Type := {
  dim_label : string;
  dim_category : JsonStat2Category
}.

(** [catLabel[code] || code] is a string or an inherited object. *)
Inductive labelValue : Type :=
  | LStr (s : string)
  | LObject (o : builtin).

Section Parser.

Context {num : Type}.

Record JsonStat2Response : Type := {
  data_label : string;
  data_source : string;
  data_updated : string;
  data_id : list string;
  data_size : list nat;
  data_dimension : gmap string JsonStat2Dimension;
  data_value : list (option num)
}.

(** ** Output: the parsed table *)

(** [string | number | null], [undefined] for an element that is read but
    was never written, and an inherited object. *)
Inductive cell : Type :=
  | CStr (s : string)
  | CNum (n : num)
  | CNull
  | CUndefined
  | CObject (o : builtin).

(** A row is an object made by [{}] and by assignments: its own properties
    and its prototype, which is [Object.prototype] unless an assignment to
    [__proto__] replaced it. *)
Record DataRow : Type := {
  own : gmap string cell;
  prototype : builtin
}.

Definition emptyRow : DataRow := {| own := ∅; prototype := ObjectPrototype |}.

Record ParsedTable : Type := {
  label : string;
  source : string;
  updated : string;
  columns : list string;
  rows : list DataRow;
  totalRows : nat;
  truncated : bool
}.

(** ** parseJsonStat2 *)

Record Category : Type := { code : string; c_label : labelValue }.

Record Dim : Type := {
  d_id : string;
  d_label : string;
  categories : list Category
}.

(** [Object.entries(catIndex).sort(([, a], [, b]) => a - b)]: the sort is
    stable, an entry moves in front of another one only when the comparator
    is negative. *)
Fixpoint insertEntry (e : string * Z) (sorted : list (string * Z))
  : list (string * Z) :=
  match sorted with
  | [] => [e]
  | x :: rest =>
      if (snd x - snd e <? 0)%Z then x :: insertEntry e rest
      else e :: x :: rest
  end.

Definition sortEntries (entries : list (string * Z)) : list (string * Z) :=
  foldr insertEntry [] entries.

Definition orderedCodes (catIndex : CategoryIndex) : list string :=
  match catIndex with
  | IndexArray codes => codes
  | IndexObject entries => map fst (sortEntries entries)
  end.

(** [catLabel[code] || code]: an own label is a string, and the empty
    string is falsy; without an own label the read goes to
    [Object.prototype], whose members are objects and truthy. *)
Definition labelOf (catLabel : gmap string string) (c : string) : labelValue :=
  match catLabel !! c with
  | Some l => if decide (l = "") then LStr c else LStr l
  | None =>
      match inheritedProperty c with
      | Some o => LObject o
      | None => LStr c
      end
  end.

(** One turn of the loop over [dimensionIds]; reading [dim.category] of a
    missing entry throws ([dim] is then [undefined] or an inherited object
    without a [category]). *)
Definition buildDimension (dimension : gmap string JsonStat2Dimension)
    (dimId : string) : option Dim :=
  dim ← dimension !! dimId;
  let catIndex := cat_index (dim_category dim) in
  let catLabel := cat_label (dim_category dim) in
  Some {| d_id := dimId;
          d_label := dim_label dim;
          categories :=
            map (fun c => {| code := c; c_label := labelOf catLabel c |})
                (orderedCodes catIndex) |}.

(** [strides[len - 1] = 1; strides[i] = strides[i + 1] * sizes[i + 1]] *)
Fixpoint computeStrides (sizes : list nat) : list nat :=
  match sizes with
  | [] => []
  | _ :: rest =>
      let later := computeStrides rest in
      match head later, head rest with
      | Some next_stride, Some next_size =>
          next_stride * next_size :: later
      | _, _ => [1]
      end
  end.

(** [dim.categories[catIdx]?.label ?? `Unknown(${catIdx})`] *)
Definition categoryAt (dim : Dim) (catIdx : number) : option Category :=
  match catIdx with
  | Fin k => categories dim !! k
  | _ => None
  end.

Definition cellLabel (dim : Dim) (catIdx : number) : labelValue :=
  match categoryAt dim catIdx with
  | Some c => c_label c
  | None => LStr ("Unknown(" +:+ numberToString catIdx +:+ ")")
  end.

Definition cellOfLabel (l : labelValue) : cell :=
  match l with
  | LStr s => CStr s
  | LObject o => CObject o
  end.

(** [row[key] = l].  An own property is overwritten.  Otherwise the
    assignment goes up the prototype chain: [__proto__] is an accessor of
    [Object.prototype] whose setter replaces the prototype by an object and
    ignores a string; a key that the chain of a built-in function rejects
    throws; any other key becomes an own property. *)
Definition rowSetLabel (row : DataRow) (key : string) (l : labelValue)
  : option DataRow :=
  if decide (is_Some (own row !! key)) then
    Some {| own := <[key := cellOfLabel l]> (own row);
            prototype := prototype row |}
  else if decide (key = "__proto__") then
    match l with
    | LStr _ => Some row
    | LObject o => Some {| own := own row; prototype := o |}
    end
  else
    match prototype row with
    | ObjectPrototype =>
        Some {| own := <[key := cellOfLabel l]> (own row);
                prototype := prototype row |}
    | ObjectMethod f =>
        if rejectedOnFunction f key then None
        else Some {| own := <[key := cellOfLabel l]> (own row);
                     prototype := prototype row |}
    end.

(** The inner loop over [d]: the state is [remaining] and the row. *)
Fixpoint decodeRow (dims : list Dim) (strides : list nat) (d : nat)
    (remaining : number) (row : DataRow) : option DataRow :=
  match dims with
  | [] => Some row
  | dim :: dims' =>
      let catIdx := floorDiv remaining (strides !! d) in
      let remaining' := remainder remaining (strides !! d) in
      row' ← rowSetLabel row (d_label dim) (cellLabel dim catIdx);
      decodeRow dims' strides (S d) remaining' row'
  end.

(** [data.value[flatIdx]] *)
Definition valueCell (v : option (option num)) : cell :=
  match v with
  | Some (Some n) => CNum n
  | Some None => CNull
  | None => CUndefined
  end.

(** [row["Verdi"] = v]: no object on any chain has such a property, the
    assignment always makes or overwrites an own one. *)
Definition rowSetValue (row : DataRow) (v : cell) : DataRow :=
  {| own := <["Verdi" := v]> (own row); prototype := prototype row |}.

(** The body of the loop over [flatIdx]. *)
Definition buildRow (dims : list Dim) (strides : list nat)
    (value : list (option num)) (flatIdx : nat) : option DataRow :=
  row ← decodeRow dims strides 0 (Fin flatIdx) emptyRow;
  Some (rowSetValue row (valueCell (value !! flatIdx))).

(** [maxRows: number = 50]: [None] is the omitted argument. *)
Definition parseJsonStat2 (data : JsonStat2Response) (maxRows : option Z)
  : option ParsedTable :=
  let maxRows := default 50%Z maxRows in
  let sizes := data_size data in
  let totalRows := length (data_value data) in
  dimensions ← mapM (buildDimension (data_dimension data)) (data_id data);
  let columns := map d_label dimensions ++ ["Verdi"] in
  let strides := computeStrides sizes in
  let limit := Z.min (Z.of_nat totalRows) maxRows in
  rows ← mapM (buildRow dimensions strides (data_value data))
              (seq 0 (Z.to_nat limit));
  Some {| label := data_label data;
          source := data_source data;
          updated := data_updated data;
          columns := columns;
          rows := rows;
          totalRows := totalRows;
          truncated := (Z.of_nat totalRows >? maxRows)%Z |}.

(** ** formatTable *)

(** What the renderer takes from the host: [formatNumber] is the function
    of that name in the source, built on [toLocaleString];
    [nativeFunctionText key] is what [String] gives for the built-in
    function under [key]; [functionPropertyText f h] is the cell rendered
    for a property [h], other than [arguments] and [caller], that is read
    on the chain of the built-in function [f] (the function itself, then
    [Function.prototype], then [Object.prototype]). *)
Record Host : Type := {
  formatNumber : num -> string;
  nativeFunctionText : string -> string;
  functionPropertyText : string -> string -> string
}.

Context (host : Host).

(** The three branches of the cell callback, on the value read. *)
Definition renderValue (val : cell) : string :=
  match val with
  | CNull | CUndefined => "-"
  | CNum n => formatNumber host n
  | CStr s => s
  | CObject ObjectPrototype => "[object Object]"
  | CObject (ObjectMethod key) => nativeFunctionText host key
  end.

(** [row[h]], rendered.  An own property is read as it is.  A missing one
    is looked up on the prototype: on [Object.prototype] it is a member of
    [objectPrototypeKeys] or [undefined]; [__proto__] reads the prototype
    itself; on the chain of a built-in function the accessors [arguments]
    and [caller] throw. *)
Definition renderCell (row : DataRow) (h : string) : option string :=
  match own row !! h with
  | Some val => Some (renderValue val)
  | None =>
      match prototype row with
      | ObjectPrototype =>
          match inheritedProperty h with
          | Some o => Some (renderValue (CObject o))
          | None => Some (renderValue CUndefined)
          end
      | ObjectMethod f =>
          if decide (h = "__proto__") then Some (nativeFunctionText host f)
          else if decide (h ∈ restrictedFunctionKeys) then None
          else Some (functionPropertyText host f h)
      end
  end.

Definition renderRow (headers : list string) (row : DataRow)
  : option string :=
  cells ← mapM (renderCell row) headers;
  Some ("| " +:+ join " | " cells +:+ " |").

Definition headerBlock (parsed : ParsedTable) : list string :=
  [ "📊 " +:+ label parsed;
    "Kilde: " +:+ source parsed;
    "Oppdatert: " +:+ updated parsed;
    "" ].

Definition truncationNotice (parsed : ParsedTable) : string :=
  "⚠️ Viser " +:+ pretty (length (rows parsed)) +:+ " av "
    +:+ pretty (totalRows parsed)
    +:+ " rader. Bruk filtre for å begrense resultatet.".

Definition formatLines (parsed : ParsedTable) : option (list string) :=
  if decide (length (rows parsed) = 0) then
    Some (headerBlock parsed ++ ["Ingen data funnet."])
  else
    let headers := columns parsed in
    let headerLine := "| " +:+ join " | " headers +:+ " |" in
    let separatorLine :=
      "| " +:+ join " | " (map (fun _ => "---") headers) +:+ " |" in
    tableLines ← mapM (renderRow headers) (rows parsed);
    Some (headerBlock parsed
            ++ [headerLine; separatorLine]
            ++ tableLines
            ++ (if truncated parsed then [""; truncationNotice parsed]
                else [])).

Definition formatTable (parsed : ParsedTable) : option string :=
  join (String "010" EmptyString) <$> formatLines parsed.

End Parser.

Arguments JsonStat2Response : clear implicits.
Arguments ParsedTable : clear implicits.
Arguments DataRow : clear implicits.
Arguments cell : clear implicits.
Arguments Host : clear implicits.

(** ** The dataset-response invariants *)

Definition product (sizes : list nat) : nat := foldr Nat.mul 1 sizes.

(** An unordered category-to-position mapping numbers its categories
    [0 .. size - 1]. *)
Definition contiguous_positions (dim : JsonStat2Dimension) (size : nat) : Prop :=
  match cat_index (dim_category dim) with
  | IndexArray _ => True
  | IndexObject entries => map snd entries ≡ₚ seqZ 0 (Z.of_nat size)
  end.

(** The sizes run parallel to the dimension identifiers, the value array
    has one entry per combination, every identifier has metadata, and
    unordered position mappings are contiguous. *)
Record valid_response {num : Type} (data : JsonStat2Response num) : Prop := {
  valid_size : length (data_size data) = length (data_id data);
  valid_value : length (data_value data) = product (data_size data);
  valid_dimension :
    Forall (λ dimId, is_Some (data_dimension data !! dimId)) (data_id data);
  valid_positions :
    Forall2 (λ dimId size,
               ∀ dim, data_dimension data !! dimId = Some dim →
                      contiguous_positions dim size)
            (data_id data) (data_size data)
}.

(** No listed dimension has the display label [__proto__]. *)
Definition no_proto_label {num : Type} (data : JsonStat2Response num) : Prop :=
  Forall (λ dimId, ∀ dim, data_dimension data !! dimId = Some dim →
                          dim_label dim ≠ "__proto__")
         (data_id data).

(** ** Notions the properties are stated with

    These are not part of the program: they name what the inner loop
    computes and what the specification compares it with. *)

(** The category indices that the loop over [d] computes, in dimension
    order. *)
Fixpoint catIndices (ndims : nat) (strides : list nat) (d : nat)
    (remaining : number) : list number :=
  match ndims with
  | 0 => []
  | S k =>
      floorDiv remaining (strides !! d)
        :: catIndices k strides (S d) (remainder remaining (strides !! d))
  end.

(** The same decoding on exact naturals, consuming the strides in turn:
    what [catIndices] computes as long as no stride is zero or missing. *)
Fixpoint decodeFrom (strides : list nat) (remaining : nat) : list nat :=
  match strides with
  | [] => []
  | s :: later => remaining / s :: decodeFrom later (remaining mod s)
  end.

(** The stride formula: the sum of [catIndex[d] * stride[d]]. *)
Definition reencode (catIdx strides : list nat) : nat :=
  sum_list (zip_with Nat.mul catIdx strides).

(** The assignments [row[dim.label] = label], one after the other, for
    dimensions paired with category indices. *)
Fixpoint setLabels {num : Type} (pairs : list (Dim * number))
    (row : DataRow num) : option (DataRow num) :=
  match pairs with
  | [] => Some row
  | (dim, c) :: rest =>
      row' ← rowSetLabel row (d_label dim) (cellLabel dim c);
      setLabels rest row'
  end.

(** The row that a tuple of category indices stands for. *)
Definition rowOfIndices {num : Type} (dims : list Dim) (catIdx : list number)
    (v : cell num) : option (DataRow num) :=
  row ← setLabels (zip dims catIdx) emptyRow;
  Some (rowSetValue row v).

(** Ascending order of positions on the entries of a category index. *)
Definition position_le (a b : string * Z) : Prop := (snd a <= snd b)%Z.


(** The text of the lines before a line, each followed by the separator,
    and of the lines after it, each preceded by the separator. *)
Definition joinBefore (sep : string) (front : list string) : string :=
  foldr (λ l acc, l +:+ sep +:+ acc) "" front.

Definition joinAfter (sep : string) (back : list string) : string :=
  foldr (λ l acc, sep +:+ l +:+ acc) "" back.

(** Reading [row[h]] returns: [h] is an own property of the row, or the
    row inherits from [Object.prototype] alone, or [h] is not one of the
    accessors of [Function.prototype] that throw. *)
Definition readable {num : Type} (row : DataRow num) (h : string) : Prop :=
  is_Some (own row !! h)
  ∨ prototype row = ObjectPrototype
  ∨ h ∉ restrictedFunctionKeys.

(** Every column can be read in every row. *)
Definition readable_table {num : Type} (parsed : ParsedTable num) : Prop :=
  Forall (λ row, Forall (readable row) (columns parsed)) (rows parsed).

(** ** Sample data *)

Definition sampleDimension (l : string) (codes : list string)
  : JsonStat2Dimension :=
  {| dim_label := l;
     dim_category := {| cat_index := IndexArray codes; cat_label := ∅ |} |}.

(** Two years by three regions; one value is missing. *)
Definition sampleData : JsonStat2Response Z :=
  {| data_label := "Befolkning"; data_source := "SSB";
     data_updated := "2024-01-01";
     data_id := ["year"; "region"];
     data_size := [2; 3];
     data_dimension :=
       <["year" := sampleDimension "year" ["2023"; "2024"]]>
         (<["region" := sampleDimension "region" ["A"; "B"; "C"]]> ∅);
     data_value :=
       [Some 1%Z; Some 2%Z; None; Some 4%Z; Some 5%Z; Some 6%Z] |}.

(** The table of the sample data under a limit of 10. *)
Definition sampleRow (year region : string) (v : cell Z) : DataRow Z :=
  {| own := list_to_map
              [("year", CStr year); ("region", CStr region); ("Verdi", v)];
     prototype := ObjectPrototype |}.

Definition sampleTable : ParsedTable Z :=
  {| label := "Befolkning"; source := "SSB"; updated := "2024-01-01";
     columns := ["year"; "region"; "Verdi"];
     rows := [ sampleRow "2023" "A" (CNum 1%Z);
               sampleRow "2023" "B" (CNum 2%Z);
               sampleRow "2023" "C" CNull;
               sampleRow "2024" "A" (CNum 4%Z);
               sampleRow "2024" "B" (CNum 5%Z);
               sampleRow "2024" "C" (CNum 6%Z) ];
     totalRows := 6;
     truncated := false |}.

(** The same data cut to two rows. *)
Definition truncatedTable : ParsedTable Z :=
  {| label := "Befolkning"; source := "SSB"; updated := "2024-01-01";
     columns := ["year"; "region"; "Verdi"];
     rows := [ sampleRow "2023" "A" (CNum 1%Z);
               sampleRow "2023" "B" (CNum 2%Z) ];
     totalRows := 6;
     truncated := true |}.

(** The truncated table with a column that no row has a key for. *)
Definition extraColumnTable (extra : string) : ParsedTable Z :=
  {| label := "Befolkning"; source := "SSB"; updated := "2024-01-01";
     columns := ["year"; "region"; "Verdi"; extra];
     rows := rows truncatedTable;
     totalRows := 6;
     truncated := true |}.

(** A host: numbers in decimal, and the text V8 prints for a built-in
    function. *)
Definition sampleNative (key : string) : string :=
  "function " +:+ (if decide (key = "constructor") then "Object" else key)
    +:+ "() { [native code] }".

Definition sampleHost : Host Z :=
  {| formatNumber := pretty;
     nativeFunctionText := sampleNative;
     functionPropertyText := λ _ _, "-" |}.



(** A dimension one of whose codes is a property name of
    [Object.prototype] and has no label. *)
Definition inheritedLabelDimension : JsonStat2Dimension :=
  {| dim_label := "kind";
     dim_category :=
       {| cat_index := IndexArray ["constructor"; "x"];
          cat_label := ∅ |} |}.

Definition inheritedLabelDimensions : gmap string JsonStat2Dimension :=
  {["kind" := inheritedLabelDimension]}.


(** Malformed: the region dimension declares three categories and lists
    two. *)
Definition shortCategoryData : JsonStat2Response Z :=
  {| data_label := "Befolkning"; data_source := "SSB";
     data_updated := "2024-01-01";
     data_id := ["year"; "region"];
     data_size := [2; 3];
     data_dimension :=
       <["year" := sampleDimension "year" ["2023"; "2024"]]>
         (<["region" := sampleDimension "region" ["A"; "B"]]> ∅);
     data_value :=
       [Some 1%Z; Some 2%Z; Some 3%Z; Some 4%Z; Some 5%Z; Some 6%Z] |}.

(** Malformed: a listed dimension identifier has no metadata. *)
Definition missingDimensionData : JsonStat2Response Z :=
  {| data_label := "Befolkning"; data_source := "SSB";
     data_updated := "2024-01-01";
     data_id := ["year"];
     data_size := [1];
     data_dimension := ∅;
     data_value := [Some 1%Z] |}.




(** Malformed: two dimensions and one size. *)
Definition missingSizeData : JsonStat2Response Z :=
  {| data_label := "Befolkning"; data_source := "SSB";
     data_updated := "2024-01-01";
     data_id := ["year"; "region"];
     data_size := [2];
     data_dimension :=
       <["year" := sampleDimension "year" ["2023"; "2024"]]>
         (<["region" := sampleDimension "region" ["A"; "B"; "C"]]> ∅);
     data_value := [Some 1%Z; Some 2%Z] |}.


(** A single dimension labelled [__proto__] whose category label is the
    inherited function [Object]: the row that is emitted has [Object] as
    its prototype. *)
Definition functionPrototypeData : JsonStat2Response Z :=
  {| data_label := "Befolkning"; data_source := "SSB";
     data_updated := "2024-01-01";
     data_id := ["a"];
     data_size := [1];
     data_dimension := <["a" := sampleDimension "__proto__" ["constructor"]]> ∅;
     data_value := [Some 7%Z] |}.

(** A table, not one that the decoder returns, with such a row and a column
    that it has no key for and that the chain of a function refuses to
    read. *)
Definition unreadableTable : ParsedTable Z :=
  {| label := "Befolkning"; source := "SSB"; updated := "2024-01-01";
     columns := ["caller"; "Verdi"];
     rows := [ {| own := {["Verdi" := CNum 7%Z]};
                  prototype := ObjectMethod "constructor" |} ];
     totalRows := 1;
     truncated := false |}.
(** ** ssb_table_info: the listing of a variable's values (index.ts) *)

Record TableVariable : Type := {
  var_code : string;
  var_text : string;
  var_values : list string;
  var_valueTexts : list string;
  var_elimination : option bool;
  var_time : option bool
}.

(** An array element inside a template literal: a missing element prints
    as undefined. *)
Definition element (l : list string) (i : nat) : string :=
  default "undefined" (l !! i).

(** [`    "${v.values[i]}" = ${v.valueTexts[i]}\n`] *)
Definition valueLine (v : TableVariable) (i : nat) : string :=
  "    " +:+ String "034" "" +:+ element (var_values v) i +:+ String "034" ""
    +:+ " = " +:+ element (var_valueTexts v) i +:+ String "010" "".

(** [`    ... (${valueCount - 20} verdier utelatt) ...\n`] *)
Definition omittedLine (valueCount : nat) : string :=
  "    ... (" +:+ pretty (valueCount - 20) +:+ " verdier utelatt) ..."
    +:+ String "010" "".

(** The pieces appended to the text for the values of one variable: all of
    them up to 20 values, otherwise the first 10, the count of the omitted
    ones and the last 10. *)
Definition valueLines (v : TableVariable) : list string :=
  let maxValuesToShow := 20 in
  let valueCount := length (var_values v) in
  if (valueCount <=? maxValuesToShow)%nat then
    map (valueLine v) (seq 0 valueCount)
  else
    map (valueLine v) (seq 0 10)
      ++ [omittedLine valueCount]
      ++ map (valueLine v) (seq (valueCount - 10) 10).

(** A variable with 23 values. *)
Definition longVariable : TableVariable :=
  {| var_code := "Region"; var_text := "region";
     var_values := map pretty (seq 0 23);
     var_valueTexts := map pretty (seq 100 23);
     var_elimination := Some true; var_time := None |}.

(** * Properties *)

(** ** Category resolution *)

Lemma insertEntry_perm e sorted : insertEntry e sorted ≡ₚ e :: sorted.
Proof.
  induction sorted as [|x rest IH]; [done|].
  simpl. destruct (snd x - snd e <? 0)%Z; [|done].
  rewrite IH. apply perm_swap.
Qed.

Lemma sortEntries_perm entries : sortEntries entries ≡ₚ entries.
Proof.
  induction entries as [|e rest IH]; [done|].
  simpl. rewrite insertEntry_perm. by constructor.
Qed.

Lemma insertEntry_sorted e sorted :
  StronglySorted position_le sorted →
  StronglySorted position_le (insertEntry e sorted).
Proof.
  induction 1 as [|x rest Hrest IH Hx]; simpl.
  - repeat constructor.
  - destruct (Z.ltb_spec (snd x - snd e) 0).
    + constructor; [done|].
      rewrite insertEntry_perm. constructor; [unfold position_le; lia | done].
    + constructor; [by constructor|].
      constructor; [unfold position_le; lia|].
      eapply Forall_impl; [exact Hx|].
      unfold position_le. intros y Hy. lia.
Qed.

Lemma sortEntries_sorted entries :
  StronglySorted position_le (sortEntries entries).
Proof.
  induction entries as [|e rest IH]; [constructor|].
  simpl. by apply insertEntry_sorted.
Qed.



Lemma seqZ_sorted z n : Sorted Z.le (seqZ z (Z.of_nat n)).
Proof.
  revert z. induction n as [|n IH]; intros z.
  - rewrite seqZ_nil by lia. constructor.
  - rewrite seqZ_cons by lia.
    replace (Z.pred (Z.of_nat (S n))) with (Z.of_nat n) by lia.
    apply Sorted_cons; [apply IH|].
    destruct n as [|n]; [rewrite seqZ_nil by lia; apply HdRel_nil|].
    rewrite seqZ_cons by lia. apply HdRel_cons. lia.
Qed.

(** Under the invariant on unordered mappings the resolved list holds, at
    index [k], the code whose position is [k]. *)
Lemma sortEntries_contiguous entries size :
  map snd entries ≡ₚ seqZ 0 (Z.of_nat size) →
  map snd (sortEntries entries) = seqZ 0 (Z.of_nat size).
Proof.
  intros Hperm.
  apply (StronglySorted_unique Z.le).
  - pose proof (sortEntries_sorted entries) as Hsorted.
    induction Hsorted as [|x rest Hrest IH Hx]; simpl; constructor; [done|].
    change (map snd rest) with (snd <$> rest).
    apply Forall_fmap. exact Hx.
  - apply Sorted_StronglySorted; [apply _ | apply seqZ_sorted].
  - rewrite <- Hperm. change map with (@fmap list _).
    by rewrite sortEntries_perm.
Qed.


Lemma inheritedProperty_None c :
  c ∉ objectPrototypeKeys → inheritedProperty c = None.
Proof.
  intros Hc. unfold inheritedProperty.
  rewrite decide_False.
  - by rewrite decide_False.
  - intros ->. apply Hc. unfold objectPrototypeKeys.
    apply list_elem_of_lookup. by exists 10.
Qed.


(** ** Strides and mixed-radix arithmetic *)

Lemma computeStrides_unfold s rest :
  computeStrides (s :: rest) =
  match head (computeStrides rest), head rest with
  | Some next_stride, Some next_size =>
      next_stride * next_size :: computeStrides rest
  | _, _ => [1]
  end.
Proof. reflexivity. Qed.

Lemma computeStrides_cons s rest :
  computeStrides (s :: rest) = product rest :: computeStrides rest.
Proof.
  revert s. induction rest as [|s1 rest IH]; intros s; [done|].
  rewrite computeStrides_unfold, (IH s1). simpl. f_equal. lia.
Qed.

Lemma length_computeStrides sizes :
  length (computeStrides sizes) = length sizes.
Proof.
  induction sizes as [|s rest IH]; [done|].
  rewrite computeStrides_cons. simpl. by rewrite IH.
Qed.

Lemma computeStrides_nonzero sizes :
  0 < product sizes → Forall (λ s, s ≠ 0) (computeStrides sizes).
Proof.
  induction sizes as [|s rest IH]; intros Hpos; [constructor|].
  rewrite computeStrides_cons. simpl in Hpos.
  assert (0 < product rest) by nia.
  constructor; [lia | auto].
Qed.

Lemma decodeFrom_roundtrip sizes r :
  r < product sizes →
  Forall2 lt (decodeFrom (computeStrides sizes) r) sizes
  ∧ reencode (decodeFrom (computeStrides sizes) r) (computeStrides sizes) = r.
Proof.
  revert r. induction sizes as [|s rest IH]; intros r Hr.
  - simpl in *. split; [constructor | unfold reencode; simpl; lia].
  - rewrite computeStrides_cons. simpl in Hr |- *.
    assert (product rest ≠ 0) as HP by nia.
    destruct (IH (r mod product rest)) as [Hrange Hsum].
    { by apply Nat.mod_upper_bound. }
    split.
    + constructor; [|done].
      apply Nat.Div0.div_lt_upper_bound. lia.
    + unfold reencode in *. simpl. rewrite Hsum.
      pose proof (Nat.div_mod_eq r (product rest)). lia.
Qed.




Lemma catIndices_decodeFrom ndims strides d r :
  Forall (λ s, s ≠ 0) strides →
  ndims = length (drop d strides) →
  catIndices ndims strides d (Fin r) = map Fin (decodeFrom (drop d strides) r).
Proof.
  intros Hnz. revert d r. induction ndims as [|k IH]; intros d r Hlen.
  - symmetry in Hlen. apply nil_length_inv in Hlen. by rewrite Hlen.
  - destruct (strides !! d) as [s|] eqn:Hs.
    + rewrite (drop_S _ _ _ Hs) in Hlen |- *. simpl in Hlen |- *.
      rewrite Hs. simpl.
      assert (s ≠ 0) as Hs0.
      { exact (Forall_lookup_1 _ _ _ _ Hnz Hs). }
      apply Nat.eqb_neq in Hs0. rewrite Hs0.
      f_equal. apply IH. lia.
    + apply lookup_ge_None in Hs. rewrite drop_ge in Hlen by done. done.
Qed.

Section Decoder.

Context {num : Type}.
Implicit Types (data : JsonStat2Response num) (table : ParsedTable num).
Implicit Types (row : DataRow num).

(** *** Assigning to a row *)

Lemma rowSetLabel_other row key l row' k :
  rowSetLabel row key l = Some row' → k ≠ key →
  own row' !! k = own row !! k.
Proof.
  unfold rowSetLabel. intros Hset Hne.
  repeat case_decide; repeat case_match; simplify_eq; simpl;
    by rewrite ?lookup_insert_ne.
Qed.

Lemma rowSetLabel_key row key l row' :
  rowSetLabel row key l = Some row' → key ≠ "__proto__" →
  own row' !! key = Some (cellOfLabel l) ∧ prototype row' = prototype row.
Proof.
  unfold rowSetLabel. intros Hset Hne.
  repeat case_decide; repeat case_match; simplify_eq; simpl;
    by rewrite ?lookup_insert_eq.
Qed.

Lemma rowSetLabel_proto_absent row l row' :
  rowSetLabel row "__proto__" l = Some row' →
  own row !! "__proto__" = None →
  own row' = own row.
Proof.
  unfold rowSetLabel. intros Hset Hnone.
  rewrite decide_False in Hset by (rewrite Hnone; by intros [? ?]).
  rewrite decide_True in Hset by done.
  by destruct l; simplify_eq.
Qed.

Lemma rowSetLabel_plain row key l :
  prototype row = ObjectPrototype → key ≠ "__proto__" →
  rowSetLabel row key l
  = Some {| own := <[key := cellOfLabel l]> (own row);
            prototype := ObjectPrototype |}.
Proof.
  unfold rowSetLabel. intros Hproto Hne. rewrite Hproto.
  case_decide; [done|]. by rewrite decide_False.
Qed.

Lemma setLabels_app (front back : list (Dim * number)) row :
  setLabels (front ++ back) row = setLabels front row ≫= setLabels back.
Proof.
  revert row. induction front as [|[dim c] front IH]; intros row; [done|].
  simpl. destruct (rowSetLabel row (d_label dim) (cellLabel dim c)); simpl;
    [apply IH | done].
Qed.

Lemma setLabels_other (pairs : list (Dim * number)) row row' col :
  setLabels pairs row = Some row' →
  Forall (λ p, d_label (fst p) ≠ col) pairs →
  own row' !! col = own row !! col.
Proof.
  revert row. induction pairs as [|[dim c] pairs IH]; intros row Hset Hne.
  - by injection Hset as <-.
  - simpl in Hset.
    destruct (rowSetLabel row (d_label dim) (cellLabel dim c)) as [r1|] eqn:H1;
      [|done].
    apply Forall_cons_1 in Hne as [Hne1 Hne].
    rewrite (IH _ Hset Hne). by eapply rowSetLabel_other.
Qed.

(** The entry under a column name other than [__proto__] is the one of the
    last dimension with that display label. *)
Lemma setLabels_last (pairs : list (Dim * number)) row row' j dim c :
  setLabels pairs row = Some row' →
  pairs !! j = Some (dim, c) →
  d_label dim ≠ "__proto__" →
  (∀ j' p, j < j' → pairs !! j' = Some p → d_label (fst p) ≠ d_label dim) →
  own row' !! d_label dim = Some (cellOfLabel (cellLabel dim c)).
Proof.
  revert row j.
  induction pairs as [|[dim0 c0] pairs IH]; intros row j Hset Hj Hne Hlast;
    [done|].
  simpl in Hset.
  destruct (rowSetLabel row (d_label dim0) (cellLabel dim0 c0)) as [r1|] eqn:H1;
    [|done].
  destruct j as [|j].
  - injection Hj as -> ->.
    rewrite (setLabels_other _ _ _ _ Hset).
    + by apply (rowSetLabel_key _ _ _ _ H1).
    + apply Forall_lookup. intros j' p Hp. apply (Hlast (S j')); [lia | done].
  - apply (IH r1 j); [done..|].
    intros j' p Hlt Hp. apply (Hlast (S j')); [lia | done].
Qed.

Lemma last_with_label (dims : list Dim) col :
  col ∈ map d_label dims →
  ∃ j dim, dims !! j = Some dim ∧ d_label dim = col
    ∧ ∀ j' dim', j < j' → dims !! j' = Some dim' → d_label dim' ≠ col.
Proof.
  induction dims as [|d dims IH]; simpl; intros Hcol.
  - by apply elem_of_nil in Hcol.
  - destruct (decide (col ∈ map d_label dims)) as [Hin|Hnot].
    + destruct (IH Hin) as (j & dim & Hj & Hlabel & Hlast).
      exists (S j), dim. split; [done|]. split; [done|].
      intros [|j'] dim' Hlt Hj'; [lia|]. apply (Hlast j'); [lia | done].
    + apply elem_of_cons in Hcol as [->|Hcol]; [|done].
      exists 0, d. split; [done|]. split; [done|].
      intros [|j'] dim' Hlt Hj'; [lia|]. simpl in Hj'.
      intros Heq. apply Hnot. rewrite <- Heq.
      apply list_elem_of_In, in_map. apply list_elem_of_In.
      by eapply list_elem_of_lookup_2.
Qed.

Lemma dom_setLabels (pairs : list (Dim * number)) row row' :
  setLabels pairs row = Some row' →
  dom (own row')
  = dom (own row)
      ∪ list_to_set (map (λ p, d_label (fst p)) pairs) ∖ {["__proto__"]}.
Proof.
  revert row. induction pairs as [|[dim c] pairs IH]; intros row Hset.
  - injection Hset as <-. set_solver.
  - simpl in Hset.
    destruct (rowSetLabel row (d_label dim) (cellLabel dim c)) as [r1|] eqn:H1;
      [|done].
    rewrite (IH _ Hset). simpl.
    assert (dom (own r1)
            = dom (own row) ∪ {[d_label dim]} ∖ {["__proto__"]}) as ->.
    { unfold rowSetLabel in H1.
      repeat case_decide; repeat case_match; simplify_eq; simpl;
        rewrite ?dom_insert_L; try set_solver.
      assert (d_label dim ∈ dom (own row)) by by apply elem_of_dom.
      set_solver. }
    set_solver.
Qed.

Lemma setLabels_plain (pairs : list (Dim * number)) row :
  Forall (λ p, d_label (fst p) ≠ "__proto__") pairs →
  prototype row = ObjectPrototype →
  ∃ row', setLabels pairs row = Some row'
          ∧ prototype row' = ObjectPrototype.
Proof.
  revert row. induction pairs as [|[dim c] pairs IH]; intros row Hne Hproto.
  - by exists row.
  - apply Forall_cons_1 in Hne as [Hne1 Hne]. simpl in *.
    rewrite rowSetLabel_plain by done. simpl. by apply IH.
Qed.

(** *** The loops *)

Lemma decodeRow_catIndices dims strides d remaining row :
  decodeRow dims strides d remaining row =
  setLabels (zip dims (catIndices (length dims) strides d remaining)) row.
Proof.
  revert d remaining row.
  induction dims as [|dim dims IH]; intros d remaining row; [done|].
  simpl. destruct (rowSetLabel _ _ _); simpl; [apply IH | done].
Qed.

Lemma buildRow_rowOfIndices dims strides (value : list (option num)) i :
  buildRow dims strides value i =
  rowOfIndices dims (catIndices (length dims) strides 0 (Fin i))
               (valueCell (value !! i)).
Proof. unfold buildRow, rowOfIndices. by rewrite decodeRow_catIndices. Qed.

Lemma length_catIndices ndims strides d remaining :
  length (catIndices ndims strides d remaining) = ndims.
Proof.
  revert d remaining. induction ndims as [|k IH]; intros d remaining; [done|].
  simpl. by rewrite IH.
Qed.

Lemma rowOfIndices_value dims catIdx (v : cell num) row :
  rowOfIndices dims catIdx v = Some row → own row !! "Verdi" = Some v.
Proof.
  unfold rowOfIndices. destruct (setLabels _ _); [|done]. simpl.
  intros [= <-]. apply lookup_insert_eq.
Qed.

Lemma rowOfIndices_dimension dims catIdx (v : cell num) row j dim c :
  rowOfIndices dims catIdx v = Some row →
  dims !! j = Some dim → catIdx !! j = Some c →
  d_label dim ≠ "__proto__" → d_label dim ≠ "Verdi" →
  (∀ j' dim', j < j' → dims !! j' = Some dim' → d_label dim' ≠ d_label dim) →
  own row !! d_label dim = Some (cellOfLabel (cellLabel dim c)).
Proof.
  unfold rowOfIndices. intros Hrow Hj Hc Hproto Hverdi Hlast.
  destruct (setLabels _ _) as [r|] eqn:Hset; [|done]. simpl in Hrow.
  injection Hrow as <-. simpl. rewrite lookup_insert_ne by done.
  apply (setLabels_last _ _ _ j dim c Hset); [|done|].
  - apply lookup_zip_with_Some. by exists dim, c.
  - intros j' [dim' c'] Hlt Hj'.
    apply lookup_zip_with_Some in Hj' as (? & ? & [= <- <-] & Hd' & _).
    simpl. by apply (Hlast j').
Qed.

Lemma parseJsonStat2_Some data maxRows table :
  parseJsonStat2 data maxRows = Some table ↔
  ∃ dims emitted,
    mapM (buildDimension (data_dimension data)) (data_id data) = Some dims
    ∧ let limit := default 50%Z maxRows in
      let n := Z.to_nat (Z.min (Z.of_nat (length (data_value data))) limit) in
      mapM (buildRow dims (computeStrides (data_size data)) (data_value data))
           (seq 0 n) = Some emitted
      ∧ table =
        {| label := data_label data;
           source := data_source data;
           updated := data_updated data;
           columns := map d_label dims ++ ["Verdi"];
           rows := emitted;
           totalRows := length (data_value data);
           truncated := (Z.of_nat (length (data_value data)) >? limit)%Z |}.
Proof.
  unfold parseJsonStat2.
  destruct (mapM _ (data_id data)) as [dims|]; simpl.
  - destruct (mapM _ (seq _ _)) as [emitted|] eqn:Hrows; simpl.
    + split.
      * intros [= <-]. by exists dims, emitted.
      * intros (dims' & emitted' & [= <-] & Hrows' & ->).
        rewrite Hrows in Hrows'. by injection Hrows' as <-.
    + split; [done|]. intros (dims' & emitted' & [= <-] & Hrows' & _).
      by rewrite Hrows in Hrows'.
  - split; [done | by intros (? & ? & ? & _)].
Qed.

Lemma buildDimension_Some dimension dimId d :
  buildDimension dimension dimId = Some d ↔
  ∃ dim, dimension !! dimId = Some dim
    ∧ d = {| d_id := dimId; d_label := dim_label dim;
             categories :=
               map (λ c, {| code := c;
                            c_label := labelOf (cat_label (dim_category dim)) c |})
                   (orderedCodes (cat_index (dim_category dim))) |}.
Proof.
  unfold buildDimension. destruct (dimension !! dimId) as [dim|]; simpl.
  - split; [intros [= <-]; by exists dim | by intros (? & [= <-] & ->)].
  - split; [done | by intros (? & ? & _)].
Qed.

Lemma buildDimension_labels data dims :
  no_proto_label data →
  mapM (buildDimension (data_dimension data)) (data_id data) = Some dims →
  Forall (λ d, d_label d ≠ "__proto__") dims.
Proof.
  intros Hno Hdims%mapM_Some_1. apply Forall_lookup. intros j d Hj.
  destruct (Forall2_lookup_r _ _ _ _ _ Hdims Hj) as (dimId & Hid & Hbuild).
  apply buildDimension_Some in Hbuild as (dim & Hdim & ->). simpl.
  by apply (Forall_lookup_1 _ _ _ _ Hno Hid).
Qed.

Lemma parseJsonStat2_returns data maxRows :
  Forall (λ dimId, is_Some (data_dimension data !! dimId)) (data_id data) →
  no_proto_label data →
  is_Some (parseJsonStat2 data maxRows).
Proof.
  intros Hdim Hno.
  destruct (mapM_is_Some_2 (buildDimension (data_dimension data))
              (data_id data)) as [dims Hdims].
  { eapply Forall_impl; [exact Hdim|].
    intros dimId [dim Hdim']. unfold buildDimension; simpl.
    rewrite Hdim'. by eexists. }
  pose proof (buildDimension_labels _ _ Hno Hdims) as Hlabels.
  unfold parseJsonStat2. rewrite Hdims. simpl.
  destruct (mapM_is_Some_2
              (buildRow dims (computeStrides (data_size data)) (data_value data))
              (seq 0 (Z.to_nat (Z.of_nat (length (data_value data))
                                  `min` default 50%Z maxRows))))
    as [emitted ->]; [|by eexists].
  apply Forall_forall. intros i _. simpl.
  rewrite buildRow_rowOfIndices. unfold rowOfIndices.
  destruct (setLabels_plain
              (zip dims (catIndices (length dims)
                           (computeStrides (data_size data)) 0 (Fin i)))
              (emptyRow (num:=num))) as (row & -> & _); [|done|by eexists].
  apply Forall_lookup. intros j [d c] Hj.
  apply lookup_zip_with_Some in Hj as (? & ? & [= <- <-] & Hd & _).
  simpl. by apply (Forall_lookup_1 _ _ _ _ Hlabels Hd).
Qed.

Lemma length_rows data maxRows table :
  parseJsonStat2 data maxRows = Some table →
  length (rows table) =
  Z.to_nat (Z.min (Z.of_nat (length (data_value data))) (default 50%Z maxRows)).
Proof.
  intros (dims & emitted & _ & Hrows & ->)%parseJsonStat2_Some. simpl.
  apply mapM_Some_1, Forall2_length in Hrows.
  by rewrite <- Hrows, length_seq.
Qed.

Lemma rows_lookup data maxRows table i :
  parseJsonStat2 data maxRows = Some table →
  i < length (rows table) →
  ∃ dims row,
    mapM (buildDimension (data_dimension data)) (data_id data) = Some dims
    ∧ length dims = length (data_id data)
    ∧ rows table !! i = Some row
    ∧ buildRow dims (computeStrides (data_size data)) (data_value data) i
      = Some row.
Proof.
  intros Hparse Hi. pose proof (length_rows _ _ _ Hparse) as Hlen.
  apply parseJsonStat2_Some in Hparse as (dims & emitted & Hdims & Hrows & ->).
  simpl in *. apply mapM_Some_1 in Hrows.
  destruct (lookup_lt_is_Some_2 emitted i Hi) as [row Hrow].
  destruct (Forall2_lookup_r _ _ _ _ _ Hrows Hrow) as (i' & Hi' & Hbuild).
  apply lookup_seq in Hi' as [-> _].
  exists dims, row. split; [done|]. split; [|done].
  apply mapM_Some_1, Forall2_length in Hdims. done.
Qed.

Lemma decode_valid data i :
  valid_response data →
  i < product (data_size data) →
  catIndices (length (data_id data)) (computeStrides (data_size data)) 0 (Fin i)
  = map Fin (decodeFrom (computeStrides (data_size data)) i).
Proof.
  intros Hvalid Hi.
  rewrite (catIndices_decodeFrom _ _ 0 i); [done| |].
  - apply computeStrides_nonzero. lia.
  - rewrite drop_0, length_computeStrides. symmetry. apply Hvalid.
Qed.

(** The own keys of an emitted row: every assignment but the one to
    [__proto__] makes a key. *)
Lemma decoded_row_keys data maxRows table row :
  parseJsonStat2 data maxRows = Some table →
  row ∈ rows table →
  dom (own row) = list_to_set (columns table) ∖ {["__proto__"]}.
Proof.
  intros Hparse [i Hi]%list_elem_of_lookup.
  assert (i < length (rows table)) as Hlt by by eapply lookup_lt_Some.
  destruct (rows_lookup _ _ _ _ Hparse Hlt)
    as (dims & row' & Hdims & _ & Hrow & Hbuild).
  rewrite Hi in Hrow. injection Hrow as <-.
  apply parseJsonStat2_Some in Hparse as (dims' & ? & Hdims' & _ & ->).
  rewrite Hdims in Hdims'. injection Hdims' as <-. simpl.
  rewrite buildRow_rowOfIndices in Hbuild. unfold rowOfIndices in Hbuild.
  destruct (setLabels _ _) as [r|] eqn:Hset; [|done].
  simpl in Hbuild. injection Hbuild as <-. simpl.
  rewrite dom_insert_L, (dom_setLabels _ _ _ Hset). simpl.
  rewrite dom_empty_L, <- (map_map fst d_label).
  change (map fst (zip dims ?l)) with ((zip dims l).*1).
  rewrite fst_zip by (rewrite length_catIndices; lia).
  rewrite list_to_set_app_L, list_to_set_singleton_L.
  apply set_eq. intros key.
  rewrite !elem_of_union, !elem_of_difference, !elem_of_union,
    !elem_of_singleton.
  split; [|tauto].
  intros [-> | [[]%not_elem_of_empty | ?]]; [|tauto].
  split; [tauto | discriminate].
Qed.


(** C10. Leaving the row limit out is the same as passing 50: the two
    calls agree on the whole result, and a call without a limit emits
    min(length of the value array, 50) rows. *)
Theorem default_limit data :
  parseJsonStat2 data None = parseJsonStat2 data (Some 50%Z)
  ∧ (λ table, length (rows table)) <$> parseJsonStat2 data None
    = (λ _, length (data_value data) `min` 50) <$> parseJsonStat2 data None.
Proof.
  split; [reflexivity|].
  destruct (parseJsonStat2 data None) as [table|] eqn:Hparse; [|done].
  simpl. f_equal. apply length_rows in Hparse. simpl in Hparse. lia.
Qed.





End Decoder.

Section DecoderShape.

Context {num : Type}.
Implicit Types (data : JsonStat2Response num) (table : ParsedTable num).


End DecoderShape.
(** ** Joining lines *)

Lemma append_cons a s t : String a s +:+ t = String a (s +:+ t).
Proof. reflexivity. Qed.

Lemma append_assoc s t u : (s +:+ t) +:+ u = s +:+ t +:+ u.
Proof.
  induction s as [|a s IH]; [done|].
  by rewrite !append_cons, IH.
Qed.

Lemma append_nil_r s : s +:+ "" = s.
Proof.
  induction s as [|a s IH]; [done|]. by rewrite append_cons, IH.
Qed.

Lemma append_inv_head s t u : s +:+ t = s +:+ u → t = u.
Proof.
  induction s as [|a s IH]; [done|].
  rewrite !append_cons. intros [= H]. by apply IH.
Qed.

Lemma join_cons sep p q rest :
  join sep (p :: q :: rest) = p +:+ sep +:+ join sep (q :: rest).
Proof. reflexivity. Qed.

Lemma join_app sep front back :
  front ≠ [] → back ≠ [] →
  join sep (front ++ back) = join sep front +:+ sep +:+ join sep back.
Proof.
  intros Hfront Hback.
  induction front as [|p [|q front] IH]; [done| |].
  - destruct back as [|b back]; [done|]. reflexivity.
  - change ((p :: q :: front) ++ back) with (p :: q :: (front ++ back)).
    rewrite !join_cons, append_assoc, append_assoc.
    do 2 f_equal. by apply IH.
Qed.

Lemma join_after sep x back :
  join sep (x :: back) = x +:+ joinAfter sep back.
Proof.
  revert x. induction back as [|y back IH]; intros x.
  - simpl. by rewrite append_nil_r.
  - rewrite join_cons, IH. reflexivity.
Qed.

(** The text of a joined list around one of its elements. *)
Lemma join_middle sep front x back :
  join sep (front ++ x :: back)
  = joinBefore sep front +:+ x +:+ joinAfter sep back.
Proof.
  induction front as [|p front IH]; [apply join_after|].
  change ((p :: front) ++ x :: back) with (p :: (front ++ x :: back)).
  destruct (front ++ x :: back) as [|q rest] eqn:Heq.
  { by destruct front. }
  rewrite join_cons, IH. simpl. by rewrite !append_assoc.
Qed.

Lemma join_lookup sep (l : list string) i x :
  l !! i = Some x →
  join sep l = joinBefore sep (take i l) +:+ x +:+ joinAfter sep (drop (S i) l).
Proof.
  intros Hi. rewrite <- (take_drop_middle l i x Hi) at 1. apply join_middle.
Qed.

Section Renderer.

Context {num : Type}.
Context (host : Host num).
Implicit Types (data : JsonStat2Response num).
Implicit Types (parsed : ParsedTable num) (row : DataRow num).

(** *** When rendering returns *)

Lemma renderCell_readable row h :
  is_Some (renderCell host row h) ↔ readable row h.
Proof.
  unfold renderCell, readable.
  destruct (own row !! h) as [val|] eqn:Hown.
  { split; [by left | by eexists]. }
  destruct (prototype row) as [|f].
  { split; [by right; left|]. intros _. by destruct (inheritedProperty h). }
  destruct (decide (h = "__proto__")) as [->|Hne].
  { split; [|by eexists]. intros _. right; right.
    unfold restrictedFunctionKeys. set_solver. }
  destruct (decide (h ∈ restrictedFunctionKeys)) as [Hin|Hnot].
  - split; [by intros [? ?]|].
    intros [[? ?]|[?|?]]; done.
  - split; [by right; right | by eexists].
Qed.

Lemma renderRow_readable row headers :
  Forall (readable row) headers →
  ∃ cells, mapM (renderCell host row) headers = Some cells
    ∧ renderRow host headers row
      = Some ("| " +:+ join " | " cells +:+ " |").
Proof.
  intros Hread.
  destruct (mapM (renderCell host row) headers) as [cells|] eqn:Hcells.
  - exists cells. split; [done|]. unfold renderRow. by rewrite Hcells.
  - exfalso. apply (eq_None_not_Some _) in Hcells. apply Hcells.
    apply mapM_is_Some. eapply Forall_impl; [exact Hread|].
    intros h. apply renderCell_readable.
Qed.

Lemma renderRows_readable parsed :
  readable_table parsed →
  ∃ tableLines,
    mapM (renderRow host (columns parsed)) (rows parsed) = Some tableLines.
Proof.
  intros Hread. apply mapM_is_Some.
  eapply Forall_impl; [exact Hread|].
  intros row Hrow. simpl.
  destruct (renderRow_readable row _ Hrow) as (cells & _ & ->). by eexists.
Qed.

(** A table whose rows are plain objects can be rendered. *)
Lemma plain_readable parsed :
  Forall (λ row, prototype row = ObjectPrototype) (rows parsed) →
  readable_table parsed.
Proof.
  intros Hplain. eapply Forall_impl; [exact Hplain|].
  intros row Hrow. apply Forall_true. intros h. by right; left.
Qed.

(** Every table that the decoder returns can be rendered: the decoder has
    assigned every column other than [__proto__] in every row, and
    [__proto__] can be read on every chain. *)
Lemma decoded_readable data maxRows parsed :
  parseJsonStat2 data maxRows = Some parsed → readable_table parsed.
Proof.
  intros Hparse. apply Forall_forall. intros row Hrow.
  apply Forall_forall. intros h Hh.
  destruct (decide (h = "__proto__")) as [->|Hne].
  - right; right. unfold restrictedFunctionKeys.
    intros [|[|[]%elem_of_nil]%elem_of_cons]%elem_of_cons; discriminate.
  - left. apply elem_of_dom.
    rewrite (decoded_row_keys _ _ _ _ Hparse Hrow).
    apply elem_of_difference. split.
    + by apply elem_of_list_to_set.
    + by apply not_elem_of_singleton.
Qed.

Lemma formatTable_readable parsed :
  readable_table parsed → is_Some (formatTable host parsed).
Proof.
  intros Hread. unfold formatTable, formatLines.
  case_decide; [by eexists|].
  destruct (renderRows_readable parsed Hread) as [tableLines ->].
  by eexists.
Qed.

Lemma formatLines_rows parsed :
  rows parsed ≠ [] →
  readable_table parsed →
  ∃ tableLines,
    mapM (renderRow host (columns parsed)) (rows parsed) = Some tableLines
    ∧ formatLines host parsed =
      Some ((headerBlock parsed
               ++ ["| " +:+ join " | " (columns parsed) +:+ " |";
                   "| " +:+ join " | " (map (λ _, "---") (columns parsed))
                     +:+ " |"]
               ++ tableLines)
            ++ (if truncated parsed then [""; truncationNotice parsed]
                else [])).
Proof.
  intros Hrows Hread.
  destruct (renderRows_readable parsed Hread) as [tableLines Hlines].
  exists tableLines. split; [done|]. unfold formatLines.
  rewrite decide_False by (by destruct (rows parsed)).
  rewrite Hlines. simpl mbind. by rewrite <- !app_assoc.
Qed.

Lemma formatLines_row parsed k row :
  readable_table parsed →
  rows parsed !! k = Some row →
  ∃ lines cells,
    formatLines host parsed = Some lines
    ∧ mapM (renderCell host row) (columns parsed) = Some cells
    ∧ lines !! (6 + k) = Some ("| " +:+ join " | " cells +:+ " |").
Proof.
  intros Hread Hrow.
  destruct (formatLines_rows parsed) as (tableLines & Hlines & Hformat);
    [by destruct (rows parsed) | done |].
  destruct (renderRow_readable row (columns parsed)) as (cells & Hcells & Hline).
  { by eapply Forall_lookup_1 in Hread. }
  eexists _, cells. split; [exact Hformat|]. split; [done|].
  apply mapM_Some in Hlines.
  destruct (Forall2_lookup_l _ _ _ _ _ Hlines Hrow) as (line & Hk & Hrender).
  rewrite Hline in Hrender. injection Hrender as <-.
  pose proof (lookup_lt_Some _ _ _ Hk) as Hlt.
  rewrite lookup_app_l by (rewrite !length_app; simpl; lia).
  change (6 + k) with (length (headerBlock parsed) + (2 + k)).
  rewrite lookup_app_r by lia.
  replace (length (headerBlock parsed) + (2 + k)
           - length (headerBlock parsed)) with (2 + k) by lia.
  exact Hk.
Qed.

(** The rendered text around the cell of row [k] and column [j]. *)
Lemma formatTable_cell parsed k row j h :
  readable_table parsed →
  rows parsed !! k = Some row →
  columns parsed !! j = Some h →
  ∃ lines cells shown,
    formatLines host parsed = Some lines
    ∧ mapM (renderCell host row) (columns parsed) = Some cells
    ∧ lines !! (6 + k) = Some ("| " +:+ join " | " cells +:+ " |")
    ∧ renderCell host row h = Some shown
    ∧ cells !! j = Some shown
    ∧ formatTable host parsed
      = Some (joinBefore (String "010" "") (take (6 + k) lines)
                +:+ "| "
                +:+ joinBefore " | " (take j cells)
                +:+ shown
                +:+ joinAfter " | " (drop (S j) cells)
                +:+ " |"
                +:+ joinAfter (String "010" "") (drop (S (6 + k)) lines)).
Proof.
  intros Hread Hrow Hcol.
  destruct (formatLines_row parsed k row Hread Hrow)
    as (lines & cells & Hlines & Hcells & Hline).
  pose proof Hcells as Hall. apply mapM_Some in Hall.
  destruct (Forall2_lookup_l _ _ _ _ _ Hall Hcol) as (shown & Hj & Hshown).
  exists lines, cells, shown. do 5 (split; [done|]).
  unfold formatTable. rewrite Hlines. simpl. f_equal.
  rewrite (join_lookup _ _ _ _ Hline). f_equal.
  rewrite (join_lookup " | " cells j shown Hj).
  by rewrite !append_assoc.
Qed.

(** C9. Where a row holds an absent value under a column name, the text
    that the renderer returns has the fixed placeholder - as the cell of
    that column in the line of that row: line 6 + k is the line of row k,
    of the form | cell | ... | cell | with one cell per column, and the
    text is the lines before it, the cells before that one, the
    placeholder, the cells after it and the lines after it.  This holds
    of every table that the decoder returns and of every other table in
    which each column can be read in each row. *)
Theorem absent_value_placeholder parsed k row j h :
  (∃ data maxRows, parseJsonStat2 data maxRows = Some parsed)
  ∨ readable_table parsed →
  rows parsed !! k = Some row →
  columns parsed !! j = Some h →
  own row !! h = Some CNull →
  ∃ lines cells,
    formatLines host parsed = Some lines
    ∧ mapM (renderCell host row) (columns parsed) = Some cells
    ∧ lines !! (6 + k) = Some ("| " +:+ join " | " cells +:+ " |")
    ∧ length cells = length (columns parsed)
    ∧ cells !! j = Some "-"
    ∧ formatTable host parsed
      = Some (joinBefore (String "010" "") (take (6 + k) lines)
                +:+ "| " +:+ joinBefore " | " (take j cells)
                +:+ "-"
                +:+ joinAfter " | " (drop (S j) cells) +:+ " |"
                +:+ joinAfter (String "010" "") (drop (S (6 + k)) lines)).
Proof.
  intros Htable Hrow Hcol Hnull.
  assert (readable_table parsed) as Hread.
  { destruct Htable as [(data & maxRows & Hparse) | Hread]; [|done].
    by eapply decoded_readable. }
  destruct (formatTable_cell parsed k row j h Hread Hrow Hcol)
    as (lines & cells & shown & Hlines & Hcells & Hline & Hshown & Hj & Htext).
  assert (shown = "-") as ->.
  { unfold renderCell in Hshown. rewrite Hnull in Hshown.
    by injection Hshown as <-. }
  exists lines, cells. do 3 (split; [done|]).
  split; [|done].
  apply mapM_Some in Hcells. symmetry. by eapply Forall2_length.
Qed.

(** C4, as the code has it.  For a table that is marked truncated and has at
    least one row, the rendered text ends with an empty line followed by the
    notice that states the number of rows shown and the total row count.
    This holds of every table that the decoder returns and of every other
    table in which each column can be read in each row. *)
Theorem truncation_notice_appended parsed :
  (∃ data maxRows, parseJsonStat2 data maxRows = Some parsed)
  ∨ readable_table parsed →
  truncated parsed = true →
  rows parsed ≠ [] →
  ∃ body,
    formatTable host parsed
    = Some (body +:+ String "010" "" +:+ String "010" ""
              +:+ "⚠️ Viser " +:+ pretty (length (rows parsed)) +:+ " av "
              +:+ pretty (totalRows parsed)
              +:+ " rader. Bruk filtre for å begrense resultatet.").
Proof.
  intros Htable Htrunc Hrows.
  assert (readable_table parsed) as Hread.
  { destruct Htable as [(data & maxRows & Hparse) | Hread]; [|done].
    by eapply decoded_readable. }
  destruct (formatLines_rows parsed Hrows Hread) as (tableLines & _ & Hlines).
  unfold formatTable. rewrite Hlines, Htrunc.
  eexists. change (?f <$> Some ?x) with (Some (f x)). f_equal.
  rewrite join_app; [reflexivity|done..].
Qed.

End Renderer.

(** * Further properties of the decoder *)

(** X1. The stride of a dimension is the product of the sizes of the dimensions
    after it; there is one stride per size. *)
Theorem strides_closed_form sizes :
  computeStrides sizes
  = map (λ d, product (drop (S d) sizes)) (seq 0 (length sizes)).
Proof.
  induction sizes as [|s rest IH]; [done|].
  rewrite computeStrides_cons. simpl. f_equal.
  rewrite IH at 1. rewrite <- seq_shift, map_map. done.
Qed.

(** X2. An index object whose entries already come in ascending position order
    is resolved to its codes in entry order. *)
Theorem sorted_entries_kept entries :
  StronglySorted position_le entries →
  orderedCodes (IndexObject entries) = map fst entries.
Proof.
  intros Hsorted. simpl. f_equal.
  induction Hsorted as [|e rest Hrest IH He]; [done|].
  simpl. rewrite IH. destruct rest as [|x rest]; [done|].
  simpl. apply Forall_cons_1 in He as [Hex _]. unfold position_le in Hex.
  destruct (Z.ltb_spec (snd x - snd e) 0); [lia | done].
Qed.

(** X3. Under the invariant on unordered mappings the resolved list has the
    declared size and holds, at index [k], the code mapped to position
    [k]. *)
Theorem unordered_index_positions entries size c k :
  map snd entries ≡ₚ seqZ 0 (Z.of_nat size) →
  (c, Z.of_nat k) ∈ entries →
  length (orderedCodes (IndexObject entries)) = size
  ∧ orderedCodes (IndexObject entries) !! k = Some c.
Proof.
  intros Hperm Hin.
  pose proof (sortEntries_contiguous _ _ Hperm) as Hpos.
  assert (length (sortEntries entries) = size) as Hlen.
  { rewrite <- (length_map snd), Hpos, length_seqZ. lia. }
  simpl. split; [by rewrite length_map|].
  rewrite <- (sortEntries_perm entries) in Hin.
  apply list_elem_of_lookup in Hin as [j Hj].
  assert (map snd (sortEntries entries) !! j = Some (Z.of_nat k)) as Hk.
  { change map with (@fmap list _). by rewrite list_lookup_fmap, Hj. }
  rewrite Hpos in Hk. apply lookup_seqZ in Hk as [Hk _].
  assert (j = k) as -> by lia.
  change map with (@fmap list _). by rewrite list_lookup_fmap, Hj.
Qed.

Section DecoderEdges.

Context {num : Type}.
Implicit Types (data : JsonStat2Response num) (table : ParsedTable num).
Implicit Types (row : DataRow num).

(** X4. When no dimension has the display label __proto__ the decoder
    throws exactly when a listed dimension identifier has no entry in the
    dimension metadata; sizes, values and the limit play no part in it. *)
Theorem throws_iff_missing_dimension data maxRows :
  no_proto_label data →
  parseJsonStat2 data maxRows = None
  ↔ Exists (λ dimId, data_dimension data !! dimId = None) (data_id data).
Proof.
  intros Hno. split.
  - intros Hnone.
    destruct (decide (Forall (λ dimId, is_Some (data_dimension data !! dimId))
                             (data_id data))) as [Hall|Hnot].
    + destruct (parseJsonStat2_returns data maxRows Hall Hno)
        as [table Htable].
      congruence.
    + apply not_Forall_Exists in Hnot; [|intros dimId; apply _].
      eapply Exists_impl; [exact Hnot|]. simpl. intros dimId Hsome.
      by apply eq_None_not_Some.
  - intros Hex. apply eq_None_not_Some.
    intros [table (dims & ? & Hdims & _)%parseJsonStat2_Some].
    apply mapM_Some_1 in Hdims.
    apply Exists_exists in Hex as (dimId & Hin & Hnone).
    apply list_elem_of_lookup in Hin as [j Hj].
    destruct (Forall2_lookup_l _ _ _ _ _ Hdims Hj) as (d & _ & Hd).
    apply buildDimension_Some in Hd as (dim & Hdim & _). congruence.
Qed.

(** X5. A smaller limit gives an initial segment of what a larger limit
    gives. *)
Theorem rows_prefix data (a b : Z) ta tb :
  (a <= b)%Z →
  parseJsonStat2 data (Some a) = Some ta →
  parseJsonStat2 data (Some b) = Some tb →
  rows ta = take (length (rows ta)) (rows tb).
Proof.
  intros Hab Ha Hb.
  pose proof (length_rows _ _ _ Ha) as Hla.
  pose proof (length_rows _ _ _ Hb) as Hlb. simpl in Hla, Hlb.
  apply list_eq. intros i.
  destruct (decide (i < length (rows ta))) as [Hi|Hi].
  - rewrite lookup_take_lt by done.
    destruct (rows_lookup _ _ _ _ Ha Hi)
      as (dims & ra & Hdims & _ & -> & Hra).
    destruct (rows_lookup _ _ _ i Hb)
      as (dims' & rb & Hdims' & _ & -> & Hrb); [lia|].
    congruence.
  - rewrite lookup_take_ge by lia. apply lookup_ge_None. lia.
Qed.

(** X6. For an integer limit that is not negative the truncated flag is set
    exactly when fewer rows are emitted than the value array holds. *)
Theorem truncated_iff_rows_dropped data maxRows table :
  (0 <= default 50 maxRows)%Z →
  parseJsonStat2 data maxRows = Some table →
  truncated table = true ↔ length (rows table) < totalRows table.
Proof.
  intros Hlimit Hparse.
  pose proof (length_rows _ _ _ Hparse) as Hlen.
  apply parseJsonStat2_Some in Hparse as (dims & emitted & _ & _ & ->).
  simpl in *. rewrite Z.gtb_ltb, Z.ltb_lt. lia.
Qed.

(** X7. A negative limit marks even an empty table as truncated. *)
Theorem negative_limit_truncated data (limit : Z) table :
  (limit < 0)%Z →
  parseJsonStat2 data (Some limit) = Some table →
  truncated table = true ∧ rows table = [].
Proof.
  intros Hlimit Hparse.
  pose proof (length_rows _ _ _ Hparse) as Hlen.
  apply parseJsonStat2_Some in Hparse as (dims & emitted & _ & _ & ->).
  simpl in *.
  split; [rewrite Z.gtb_ltb, Z.ltb_lt; lia|].
  apply nil_length_inv. lia.
Qed.

(** X8. The value column of the emitted rows is the value array, cut to the
    number of rows, in the same order. *)
Theorem value_column data maxRows table :
  parseJsonStat2 data maxRows = Some table →
  map (λ row, own row !! "Verdi") (rows table)
  = map (λ v, Some (match v with Some n => CNum n | None => CNull end))
        (take (length (rows table)) (data_value data)).
Proof.
  intros Hparse.
  pose proof (length_rows _ _ _ Hparse) as Hlen.
  apply list_eq. intros i.
  change map with (@fmap list _). rewrite !list_lookup_fmap.
  destruct (decide (i < length (rows table))) as [Hi|Hi].
  - destruct (rows_lookup _ _ _ _ Hparse Hi)
      as (dims & row & _ & _ & -> & Hbuild).
    rewrite lookup_take_lt by done.
    destruct (lookup_lt_is_Some_2 (data_value data) i) as [v Hv]; [lia|].
    rewrite Hv. simpl. rewrite buildRow_rowOfIndices in Hbuild.
    rewrite (rowOfIndices_value _ _ _ _ Hbuild), Hv.
    by destruct v.
  - rewrite (proj2 (lookup_ge_None (rows table) i)) by lia.
    rewrite lookup_take_ge by lia. done.
Qed.

(** X9. The keys of an emitted row are exactly the column names other than
    __proto__. *)
Theorem row_keys data maxRows table row :
  parseJsonStat2 data maxRows = Some table →
  row ∈ rows table →
  dom (own row) = list_to_set (columns table) ∖ {["__proto__"]}.
Proof. apply decoded_row_keys. Qed.

(** X10. In a valid response two different flat positions decode to
    different tuples of category indices. *)
Theorem decoded_indices_injective data i j :
  valid_response data →
  i < length (data_value data) →
  j < length (data_value data) →
  i ≠ j →
  catIndices (length (data_id data)) (computeStrides (data_size data)) 0 (Fin i)
  ≠ catIndices (length (data_id data)) (computeStrides (data_size data)) 0
               (Fin j).
Proof.
  intros Hvalid Hi Hj Hne Heq. apply Hne.
  pose proof (valid_value _ Hvalid) as Hvalue.
  rewrite !decode_valid in Heq by (done || lia).
  assert (Inj (=) (=) Fin) by (intros x y [= ->]; done).
  change map with (@fmap list _) in Heq.
  apply (inj (fmap Fin)) in Heq.
  destruct (decodeFrom_roundtrip (data_size data) i) as [_ <-]; [lia|].
  destruct (decodeFrom_roundtrip (data_size data) j) as [_ <-]; [lia|].
  by rewrite Heq.
Qed.

Lemma contiguous_positions_length dim size :
  contiguous_positions dim size →
  (∀ codes, cat_index (dim_category dim) = IndexArray codes →
            length codes = size) →
  length (orderedCodes (cat_index (dim_category dim))) = size.
Proof.
  unfold contiguous_positions.
  destruct (cat_index (dim_category dim)) as [codes|entries];
    intros Hperm Harray; simpl.
  - by apply Harray.
  - rewrite length_map, (Permutation_length (sortEntries_perm entries)).
    rewrite <- (length_map snd), (Permutation_length Hperm), length_seqZ. lia.
Qed.

(** X11. In a valid response whose category lists given as sequences have
    the declared sizes no cell is a placeholder: under every dimension
    column (other than one named as the value column or __proto__) a row
    holds what the decoder attached to one of the resolved categories of a
    dimension with that column name. *)
Theorem labels_resolved data maxRows table i row col :
  valid_response data →
  Forall2 (λ dimId size,
             ∀ dim codes, data_dimension data !! dimId = Some dim →
                          cat_index (dim_category dim) = IndexArray codes →
                          length codes = size)
          (data_id data) (data_size data) →
  parseJsonStat2 data maxRows = Some table →
  rows table !! i = Some row →
  col ∈ columns table →
  col ≠ "Verdi" →
  col ≠ "__proto__" →
  ∃ dimId dim c,
    dimId ∈ data_id data
    ∧ data_dimension data !! dimId = Some dim
    ∧ dim_label dim = col
    ∧ c ∈ orderedCodes (cat_index (dim_category dim))
    ∧ own row !! col
      = Some (cellOfLabel (labelOf (cat_label (dim_category dim)) c)).
Proof.
  intros Hvalid Harrays Hparse Hrow Hcol Hne Hproto.
  pose proof (length_rows _ _ _ Hparse) as Hlen.
  pose proof (valid_value _ Hvalid) as Hvalue.
  pose proof (valid_size _ Hvalid) as Hsize.
  assert (i < length (rows table)) as Hi by by eapply lookup_lt_Some.
  destruct (rows_lookup _ _ _ _ Hparse Hi)
    as (dims & row' & Hdims & Hnd & Hrow' & Hbuild).
  rewrite Hrow in Hrow'. injection Hrow' as <-.
  assert (col ∈ map d_label dims) as Hcol'.
  { apply parseJsonStat2_Some in Hparse as (dims' & ? & Hdims' & _ & ->).
    rewrite Hdims in Hdims'. injection Hdims' as <-. simpl in Hcol.
    apply elem_of_app in Hcol as [Hcol|Hcol%list_elem_of_singleton]; done. }
  destruct (decodeFrom_roundtrip (data_size data) i) as [Hrange _]; [lia|].
  rewrite buildRow_rowOfIndices, Hnd, decode_valid in Hbuild by (done || lia).
  set (cs := decodeFrom (computeStrides (data_size data)) i) in *.
  pose proof (Forall2_length _ _ _ Hrange) as Hcs.
  destruct (last_with_label dims col Hcol') as (j & d & Hd & Hlabel & Hlast).
  destruct (lookup_lt_is_Some_2 cs j) as [k Hk].
  { rewrite Hcs, Hsize, <- Hnd. by eapply lookup_lt_Some. }
  assert (map Fin cs !! j = Some (Fin k)) as Hidx.
  { change map with (@fmap list _). by rewrite list_lookup_fmap, Hk. }
  subst col.
  rewrite (rowOfIndices_dimension _ _ _ _ j d (Fin k) Hbuild) by done.
  destruct (Forall2_lookup_l _ _ _ _ _ Hrange Hk) as (size & Hsz & Hlt).
  apply mapM_Some_1 in Hdims.
  destruct (Forall2_lookup_r _ _ _ _ _ Hdims Hd) as (dimId & Hid & Hbuild').
  apply buildDimension_Some in Hbuild' as (dim & Hdim & ->).
  assert (length (orderedCodes (cat_index (dim_category dim))) = size)
    as Hcodes.
  { apply contiguous_positions_length.
    - by apply (Forall2_lookup_lr _ _ _ _ _ _ (valid_positions _ Hvalid)
                  Hid Hsz).
    - intros codes. by apply (Forall2_lookup_lr _ _ _ _ _ _ Harrays Hid Hsz). }
  destruct (lookup_lt_is_Some_2 (orderedCodes (cat_index (dim_category dim))) k)
    as [c0 Hc0]; [lia|].
  exists dimId, dim, c0.
  split; [by eapply list_elem_of_lookup_2|]. split; [done|].
  split; [done|]. split; [by eapply list_elem_of_lookup_2|].
  unfold cellLabel, categoryAt. simpl.
  change map with (@fmap list _). by rewrite list_lookup_fmap, Hc0.
Qed.

Lemma catIndices_last n strides d remaining :
  ∃ remaining',
    catIndices (S n) strides d remaining
    = catIndices n strides d remaining
        ++ [floorDiv remaining' (strides !! (d + n))].
Proof.
  revert d remaining. induction n as [|n IH]; intros d remaining.
  - exists remaining. simpl. by rewrite Nat.add_0_r.
  - destruct (IH (S d) (remainder remaining (strides !! d))) as [r Hr].
    exists r. change (catIndices (S (S n)) strides d remaining)
      with (floorDiv remaining (strides !! d)
              :: catIndices (S n) strides (S d)
                   (remainder remaining (strides !! d))).
    rewrite Hr. simpl. by rewrite Nat.add_succ_r.
Qed.

Lemma floorDiv_undefined remaining : floorDiv remaining None = NaN.
Proof. by destruct remaining. Qed.

(** X12. When the response lists more dimensions than sizes the last
    dimension has no stride: its category index is not a number in every
    row, and its column (unless it is named as the value column or
    __proto__) holds the placeholder Unknown(NaN). *)
Theorem missing_size_placeholder data maxRows table row ids dimId dim :
  data_id data = ids ++ [dimId] →
  (length (data_size data) <= length ids)%nat →
  data_dimension data !! dimId = Some dim →
  dim_label dim ≠ "Verdi" →
  dim_label dim ≠ "__proto__" →
  parseJsonStat2 data maxRows = Some table →
  row ∈ rows table →
  own row !! dim_label dim = Some (CStr "Unknown(NaN)").
Proof.
  intros Hids Hsizes Hdim Hne Hproto Hparse [i Hi]%list_elem_of_lookup.
  assert (i < length (rows table)) as Hlt by by eapply lookup_lt_Some.
  destruct (rows_lookup _ _ _ _ Hparse Hlt)
    as (dims & row' & Hdims & Hnd & Hrow & Hbuild).
  rewrite Hi in Hrow. injection Hrow as <-.
  apply mapM_Some_1 in Hdims. rewrite Hids in Hdims, Hnd.
  apply Forall2_app_inv_l in Hdims as (dims' & last & Hdims' & Hlast & ->).
  apply Forall2_length in Hdims'.
  apply Forall2_cons_inv_l in Hlast
    as (d & rest & Hd & ->%Forall2_nil_inv_l & ->).
  apply buildDimension_Some in Hd as (dim' & Hdim' & ->).
  rewrite Hdim in Hdim'. injection Hdim' as <-.
  rewrite buildRow_rowOfIndices, length_app in Hbuild. simpl length in Hbuild.
  rewrite Nat.add_1_r in Hbuild.
  destruct (catIndices_last (length dims')
              (computeStrides (data_size data)) 0 (Fin i)) as [r Hr].
  rewrite Hr in Hbuild.
  rewrite (proj2 (lookup_ge_None (computeStrides (data_size data)) _))
    in Hbuild by (rewrite length_computeStrides; simpl; lia).
  rewrite floorDiv_undefined in Hbuild.
  match type of Hbuild with
  | rowOfIndices (_ ++ [?d]) _ _ = _ =>
      apply (rowOfIndices_dimension _ _ _ _ (length dims') d NaN Hbuild)
  end; try done.
  - by rewrite lookup_app_r, Nat.sub_diag by lia.
  - by rewrite lookup_app_r, length_catIndices, Nat.sub_diag
      by (rewrite length_catIndices; lia).
  - intros j' d' Hlt' Hj'. apply lookup_lt_Some in Hj'.
    rewrite length_app in Hj'. simpl in Hj'. lia.
Qed.

(** X18. A resolved code that is a property name of Object.prototype and
    has no entry in the category-label mapping does not get a string as its
    label: it gets the inherited object, the built-in function under that
    name (Object.prototype itself for __proto__). *)
Theorem inherited_label dimension dimId dim k c :
  dimension !! dimId = Some dim →
  orderedCodes (cat_index (dim_category dim)) !! k = Some c →
  cat_label (dim_category dim) !! c = None →
  c ∈ objectPrototypeKeys →
  ∃ d cat,
    buildDimension dimension dimId = Some d
    ∧ categories d !! k = Some cat
    ∧ code cat = c
    ∧ c_label cat
      = LObject (if decide (c = "__proto__") then ObjectPrototype
                 else ObjectMethod c).
Proof.
  intros Hdim Hc Hnone Hkey. unfold buildDimension. rewrite Hdim. simpl.
  eexists _, _. split; [reflexivity|]. simpl. split.
  { change map with (@fmap list _). by rewrite list_lookup_fmap, Hc. }
  split; [done|]. simpl. unfold labelOf, inheritedProperty. rewrite Hnone.
  case_decide; [done|]. by rewrite decide_True.
Qed.

End DecoderEdges.

(** * The value listing of ssb_table_info *)

(** X16. Up to 20 values are all listed, in order.  Of more than 20 values
    exactly 20 are listed, each once and in ascending order: those at the
    indices below 10 before the line that reports the number of omitted
    values, those at the last 10 indices after it; the number reported and
    the number listed add up to the number of values. *)
Theorem value_listing_accounting v :
  ∃ shown : list nat,
    StronglySorted lt shown
    ∧ length shown = length (var_values v) `min` 20
    ∧ (∀ i, i ∈ shown ↔
            i < length (var_values v)
            ∧ (length (var_values v) <= 20 ∨ i < 10
               ∨ length (var_values v) - 10 <= i)%nat)
    ∧ valueLines v
      = (if decide (length (var_values v) <= 20)%nat
         then map (valueLine v) shown
         else map (valueLine v) (take 10 shown)
                ++ [omittedLine (length (var_values v))]
                ++ map (valueLine v) (drop 10 shown))
    ∧ length shown + (length (var_values v) - 20) = length (var_values v).
Proof.
  unfold valueLines. set (n := length (var_values v)).
  assert (∀ a m, StronglySorted lt (seq a m)) as Hseq.
  { intros a m. revert a. induction m as [|m IH]; intros a; [constructor|].
    simpl. constructor; [apply IH|].
    apply Forall_forall. intros x Hx%elem_of_seq. lia. }
  destruct (Nat.leb_spec n 20) as [Hle|Hgt].
  - exists (seq 0 n). rewrite decide_True by done.
    split; [apply Hseq|]. split; [rewrite length_seq; lia|].
    split; [intros i; rewrite elem_of_seq; lia|].
    split; [done | rewrite length_seq; lia].
  - exists (seq 0 10 ++ seq (n - 10) 10). rewrite decide_False by lia.
    split.
    { apply StronglySorted_app_2; [|apply Hseq..].
      intros x y Hx%elem_of_seq Hy%elem_of_seq. lia. }
    split; [rewrite length_app, !length_seq; lia|].
    split; [intros i; rewrite elem_of_app, !elem_of_seq; lia|].
    split; [|rewrite length_app, !length_seq; lia].
    rewrite take_app_length' by (by rewrite length_seq).
    rewrite drop_app_length' by (by rewrite length_seq). done.
Qed.

(** * Further properties of the renderer *)

Section RendererEdges.

Context {num : Type}.
Context (host : Host num).
Implicit Types (data : JsonStat2Response num) (parsed : ParsedTable num).
Implicit Types (row : DataRow num).

Lemma mapM_ext_in {A B : Type} (f g : A → option B) (l : list A) :
  (∀ x, x ∈ l → f x = g x) → mapM f l = mapM g l.
Proof.
  induction l as [|x l IH]; intros Hext; [done|]. simpl.
  rewrite (Hext x) by left.
  rewrite IH; [done|]. intros y Hy. apply Hext. by right.
Qed.

(** X13. A plain row that lacks the key of a column is rendered, in the cell
    of that column, with the placeholder - unless the column name is a
    property name of Object.prototype: then the cell shows what the row
    inherits, the text of the built-in function of that name, or
    [object Object] for __proto__.  The text that the renderer returns is
    the lines before the line of the row, the cells before that one, what
    is shown, the cells after it and the lines after it. *)
Theorem missing_key_rendering parsed k row j h :
  readable_table parsed →
  rows parsed !! k = Some row →
  columns parsed !! j = Some h →
  own row !! h = None →
  prototype row = ObjectPrototype →
  ∃ lines cells shown,
    (h ∉ objectPrototypeKeys → shown = "-")
    ∧ (h = "__proto__" → shown = "[object Object]")
    ∧ (h ∈ objectPrototypeKeys → h ≠ "__proto__" →
       shown = nativeFunctionText host h)
    ∧ formatLines host parsed = Some lines
    ∧ mapM (renderCell host row) (columns parsed) = Some cells
    ∧ lines !! (6 + k) = Some ("| " +:+ join " | " cells +:+ " |")
    ∧ formatTable host parsed
      = Some (joinBefore (String "010" "") (take (6 + k) lines)
                +:+ "| "
                +:+ joinBefore " | " (take j cells)
                +:+ shown
                +:+ joinAfter " | " (drop (S j) cells)
                +:+ " |"
                +:+ joinAfter (String "010" "") (drop (S (6 + k)) lines)).
Proof.
  intros Hread Hrow Hcol Hnone Hplain.
  destruct (formatTable_cell host parsed k row j h Hread Hrow Hcol)
    as (lines & cells & shown & Hlines & Hcells & Hline & Hshown & Hj & Htext).
  exists lines, cells, shown.
  unfold renderCell in Hshown. rewrite Hnone, Hplain in Hshown.
  split; [|split; [|split]]; [| | |done].
  - intros Hkey. rewrite inheritedProperty_None in Hshown by done.
    by injection Hshown as <-.
  - intros ->. by injection Hshown as <-.
  - intros Hkey Hne. unfold inheritedProperty in Hshown.
    rewrite decide_False, decide_True in Hshown by done.
    by injection Hshown as <-.
Qed.

(** X14. The text rendered for a table with rows that is not marked
    truncated ends with a line break and the line of the last row: no
    notice follows it. *)
Theorem untruncated_ends_with_last_row parsed row :
  readable_table parsed →
  truncated parsed = false →
  last (rows parsed) = Some row →
  ∃ body line,
    renderRow host (columns parsed) row = Some line
    ∧ formatTable host parsed = Some (body +:+ String "010" "" +:+ line).
Proof.
  intros Hread Htrunc Hlast.
  assert (rows parsed ≠ []) as Hrows by (by destruct (rows parsed)).
  destruct (formatLines_rows host parsed Hrows Hread)
    as (tableLines & Hrendered & Hlines).
  apply last_Some in Hlast as [rs Hrs].
  rewrite Hrs in Hrendered. apply mapM_Some in Hrendered.
  apply Forall2_app_inv_l in Hrendered
    as (front & back & _ & Hback & ->).
  apply Forall2_cons_inv_l in Hback as (line & rest & Hline & Hrest & ->).
  apply Forall2_nil_inv_l in Hrest as ->.
  unfold formatTable. rewrite Hlines, Htrunc, app_nil_r, !app_assoc.
  eexists _, line. split; [exact Hline|].
  change (?f <$> Some ?x) with (Some (f x)). f_equal.
  rewrite join_app; [reflexivity| |done].
  intros Heq. apply (f_equal length) in Heq.
  rewrite !length_app in Heq. simpl in Heq. lia.
Qed.

(** X15. The decoder followed by the renderer: the text is the header block
    and the no-data line exactly when the value array is empty or the
    (integer) limit is zero or negative. *)
Theorem no_data_rendering data maxRows parsed :
  parseJsonStat2 data maxRows = Some parsed →
  formatTable host parsed
    = Some (join (String "010" "")
              (headerBlock parsed ++ ["Ingen data funnet."]))
  ↔ data_value data = [] ∨ (default 50%Z maxRows <= 0)%Z.
Proof.
  intros Hparse. pose proof (length_rows _ _ _ Hparse) as Hlen.
  destruct (decide (length (rows parsed) = 0)) as [H0|H0].
  - split.
    + intros _. destruct (data_value data) as [|v vs]; [by left|]. right.
      simpl length in Hlen. lia.
    + intros _. unfold formatTable, formatLines. by rewrite decide_True.
  - split.
    + assert (rows parsed ≠ []) as Hrows by (by destruct (rows parsed)).
      destruct (formatLines_rows host parsed Hrows
                  (decoded_readable _ _ _ Hparse))
        as (tableLines & _ & Hlines).
      unfold formatTable. rewrite Hlines.
      change (?f <$> Some ?x) with (Some (f x)). intros Heq.
      apply (inj Some) in Heq. exfalso. revert Heq.
      rewrite (join_app _ (headerBlock parsed) ["Ingen data funnet."]) by done.
      rewrite <- !app_assoc.
      rewrite (join_app _ (headerBlock parsed)) by done.
      intros Heq%append_inv_head%append_inv_head.
      simpl app in Heq. rewrite join_after in Heq. simpl in Heq.
      rewrite !append_cons in Heq. discriminate Heq.
    + intros [Hnil|Hle]; [rewrite Hnil in Hlen; simpl in Hlen|]; lia.
Qed.

(** X19. Rendering throws exactly for a table with rows in which some
    column cannot be read in some row: the row has no such key, its
    prototype was replaced by a built-in function, and the column is
    arguments or caller. *)
Theorem rendering_throws_iff_unreadable parsed :
  formatTable host parsed = None
  ↔ rows parsed ≠ [] ∧ ¬ readable_table parsed.
Proof.
  split.
  - intros Hnone. split.
    + intros Hnil. unfold formatTable, formatLines in Hnone.
      rewrite Hnil in Hnone. discriminate Hnone.
    + intros Hread.
      destruct (formatTable_readable host parsed Hread) as [text Htext].
      congruence.
  - intros [Hrows Hnot].
    destruct (formatTable host parsed) as [text|] eqn:Htext; [|done].
    exfalso. apply Hnot. unfold formatTable, formatLines in Htext.
    rewrite decide_False in Htext by (by destruct (rows parsed)).
    destruct (mapM (renderRow host (columns parsed)) (rows parsed))
      as [tableLines|] eqn:Hlines; [|discriminate Htext].
    apply mapM_Some in Hlines.
    apply Forall_forall. intros row [k Hk]%list_elem_of_lookup.
    destruct (Forall2_lookup_l _ _ _ _ _ Hlines Hk) as (line & _ & Hline).
    unfold renderRow in Hline.
    destruct (mapM (renderCell host row) (columns parsed)) as [cells|]
      eqn:Hcells; [|discriminate Hline].
    assert (is_Some (mapM (renderCell host row) (columns parsed))) as Hsome
      by by eexists.
    apply mapM_is_Some in Hsome.
    eapply Forall_impl; [exact Hsome|].
    intros h. apply renderCell_readable.
Qed.

End RendererEdges.

(** X17. A table that the decoder returned is rendered without a throw, and
    its text does not depend on what the host finds on the chain of a
    built-in function: the decoder has assigned every column of every row,
    so that a row is read through its prototype for the column __proto__
    only. *)
Theorem decoded_rendering_host_independent {num : Type}
    (data : JsonStat2Response num) maxRows table (host1 host2 : Host num) :
  parseJsonStat2 data maxRows = Some table →
  formatNumber host1 = formatNumber host2 →
  nativeFunctionText host1 = nativeFunctionText host2 →
  ∃ text,
    formatTable host1 table = Some text ∧ formatTable host2 table = Some text.
Proof.
  intros Hparse Hnumber Hnative.
  assert (∀ v : cell num, renderValue host1 v = renderValue host2 v) as Hvalue.
  { intros [s|n| | |[|key]]; simpl; congruence. }
  assert (formatTable host1 table = formatTable host2 table) as Heq.
  { unfold formatTable, formatLines. f_equal.
    case_decide; [done|].
    rewrite (mapM_ext_in (renderRow host1 (columns table))
               (renderRow host2 (columns table))); [done|].
    intros row Hrow. unfold renderRow.
    rewrite (mapM_ext_in (renderCell host1 row) (renderCell host2 row));
      [done|].
    intros h Hh. unfold renderCell.
    destruct (own row !! h) as [v|] eqn:Hown; [by rewrite Hvalue|].
    assert (h = "__proto__") as ->.
    { apply not_elem_of_dom in Hown.
      rewrite (decoded_row_keys _ _ _ _ Hparse Hrow) in Hown.
      destruct (decide (h = "__proto__")) as [|Hne]; [done|].
      exfalso. apply Hown. apply elem_of_difference. split.
      - by apply elem_of_list_to_set.
      - by apply not_elem_of_singleton. }
    destruct (prototype row) as [|f]; simpl; congruence. }
  destruct (formatTable_readable host1 table (decoded_readable _ _ _ Hparse))
    as [text Htext].
  exists text. split; [done|]. by rewrite <- Heq.
Qed.

(** * The sample data, decoded and rendered *)

Lemma sampleData_valid : valid_response sampleData.
Proof.
  split; [reflexivity | reflexivity | |].
  - repeat constructor; by eexists.
  - repeat constructor; intros dim [= <-]; exact I.
Qed.


Lemma sampleData_parses :
  parseJsonStat2 sampleData (Some 10%Z) = Some sampleTable.
Proof. vm_compute. reflexivity. Qed.

Lemma sampleData_truncated :
  parseJsonStat2 sampleData (Some 2%Z) = Some truncatedTable.
Proof. vm_compute. reflexivity. Qed.












(** The third region of the malformed sample has no category: rows 2 and 5
    carry the placeholder built from the raw index. *)
Lemma out_of_range_placeholder :
  (λ table, map (λ row, own row !! "region") (rows table))
    <$> parseJsonStat2 shortCategoryData (Some 10%Z)
  = Some [ Some (CStr "A"); Some (CStr "B"); Some (CStr "Unknown(2)");
           Some (CStr "A"); Some (CStr "B"); Some (CStr "Unknown(2)") ].
Proof. vm_compute. reflexivity. Qed.







Lemma sampleTable_readable : readable_table sampleTable.
Proof. apply plain_readable. repeat constructor. Qed.

Lemma extraColumnTable_readable extra :
  readable_table (extraColumnTable extra).
Proof. apply plain_readable. repeat constructor. Qed.

Lemma absent_value_placeholder_witness :
  parseJsonStat2 sampleData (Some 10%Z) = Some sampleTable
  ∧ rows sampleTable !! 2 = Some (sampleRow "2023" "C" CNull)
  ∧ columns sampleTable !! 2 = Some "Verdi"
  ∧ own (sampleRow "2023" "C" CNull) !! "Verdi" = Some CNull
  ∧ ∃ lines cells,
      formatLines sampleHost sampleTable = Some lines
      ∧ lines !! 8 = Some ("| " +:+ join " | " cells +:+ " |")
      ∧ length cells = 3
      ∧ cells !! 2 = Some "-".
Proof.
  split; [exact sampleData_parses|].
  split; [reflexivity|]. split; [reflexivity|]. split; [reflexivity|].
  destruct (absent_value_placeholder sampleHost sampleTable 2
              (sampleRow "2023" "C" CNull) 2 "Verdi"
              (or_introl (ex_intro _ sampleData
                            (ex_intro _ (Some 10%Z) sampleData_parses)))
              eq_refl eq_refl eq_refl)
    as (lines & cells & Hlines & _ & Hline & Hlen & Hcell & _).
  by exists lines, cells.
Defined.

(** The rendering of the sample: the row with the missing value shows the
    placeholder. *)
Lemma absent_value_rendered :
  formatTable sampleHost sampleTable
  = Some (join (String "010" "")
      [ "📊 Befolkning"; "Kilde: SSB"; "Oppdatert: 2024-01-01"; "";
        "| year | region | Verdi |"; "| --- | --- | --- |";
        "| 2023 | A | 1 |"; "| 2023 | B | 2 |"; "| 2023 | C | - |";
        "| 2024 | A | 4 |"; "| 2024 | B | 5 |"; "| 2024 | C | 6 |" ]).
Proof. vm_compute. reflexivity. Qed.

Lemma truncation_notice_appended_witness :
  parseJsonStat2 sampleData (Some 2%Z) = Some truncatedTable
  ∧ truncated truncatedTable = true
  ∧ rows truncatedTable ≠ []
  ∧ ∃ body,
      formatTable sampleHost truncatedTable
      = Some (body +:+ String "010" "" +:+ String "010" ""
          +:+ "⚠️ Viser 2 av 6 rader. Bruk filtre for å begrense resultatet.").
Proof.
  split; [exact sampleData_truncated|].
  split; [reflexivity|]. split; [discriminate|].
  apply (truncation_notice_appended sampleHost truncatedTable);
    [left; exists sampleData, (Some 2%Z); exact sampleData_truncated
    | reflexivity | discriminate].
Defined.

(** C4 fails for a truncated table without rows: with a limit of 0 the
    sample is marked truncated, and its rendering is the header block and
    the no-data line, without a notice. *)
Lemma truncated_empty_table_has_no_notice :
  ∃ table text,
    parseJsonStat2 sampleData (Some 0%Z) = Some table
    ∧ truncated table = true
    ∧ formatTable sampleHost table = Some text
    ∧ text
      = join (String "010" "")
          [ "📊 Befolkning"; "Kilde: SSB"; "Oppdatert: 2024-01-01"; "";
            "Ingen data funnet." ]
    ∧ String.index 0 (truncationNotice table) text = None
    ∧ String.index 0 "Viser" text = None.
Proof.
  eexists _, _. split; [vm_compute; reflexivity|].
  split; [reflexivity|]. split; [vm_compute; reflexivity|].
  repeat split; vm_compute; reflexivity.
Qed.

(** * The further properties on the sample data *)

Lemma sorted_entries_kept_witness :
  StronglySorted position_le [("b", 0%Z); ("a", 1%Z); ("c", 1%Z)]
  ∧ orderedCodes (IndexObject [("b", 0%Z); ("a", 1%Z); ("c", 1%Z)])
    = ["b"; "a"; "c"].
Proof.
  assert (StronglySorted position_le [("b", 0%Z); ("a", 1%Z); ("c", 1%Z)])
    as Hsorted.
  { repeat constructor; unfold position_le; simpl; lia. }
  split; [exact Hsorted|].
  exact (sorted_entries_kept _ Hsorted).
Defined.

Lemma unordered_index_positions_witness :
  map snd [("a", 1%Z); ("b", 0%Z)] ≡ₚ seqZ 0 (Z.of_nat 2)
  ∧ ("a", Z.of_nat 1) ∈ [("a", 1%Z); ("b", 0%Z)]
  ∧ length (orderedCodes (IndexObject [("a", 1%Z); ("b", 0%Z)])) = 2
  ∧ orderedCodes (IndexObject [("a", 1%Z); ("b", 0%Z)]) !! 1 = Some "a".
Proof.
  assert (map snd [("a", 1%Z); ("b", 0%Z)] ≡ₚ seqZ 0 (Z.of_nat 2)) as Hperm.
  { apply perm_swap. }
  assert (("a", Z.of_nat 1) ∈ [("a", 1%Z); ("b", 0%Z)]) as Hin by left.
  split; [exact Hperm|]. split; [exact Hin|].
  exact (unordered_index_positions _ 2 "a" 1 Hperm Hin).
Defined.

Lemma throws_iff_missing_dimension_witness :
  no_proto_label missingDimensionData
  ∧ (parseJsonStat2 missingDimensionData (Some 10%Z) = None
     ↔ Exists (λ dimId, data_dimension missingDimensionData !! dimId = None)
              (data_id missingDimensionData)).
Proof.
  assert (no_proto_label missingDimensionData) as Hno.
  { repeat constructor. intros dim Hdim. discriminate Hdim. }
  split; [exact Hno|].
  exact (throws_iff_missing_dimension missingDimensionData (Some 10%Z) Hno).
Defined.

Lemma rows_prefix_witness :
  (2 <= 10)%Z
  ∧ parseJsonStat2 sampleData (Some 2%Z) = Some truncatedTable
  ∧ parseJsonStat2 sampleData (Some 10%Z) = Some sampleTable
  ∧ rows truncatedTable = take 2 (rows sampleTable).
Proof.
  assert (2 <= 10)%Z as Hle by lia.
  split; [exact Hle|]. split; [exact sampleData_truncated|].
  split; [exact sampleData_parses|].
  exact (rows_prefix sampleData 2 10 truncatedTable sampleTable Hle
           sampleData_truncated sampleData_parses).
Defined.

Lemma truncated_iff_rows_dropped_witness :
  (0 <= default 50 (Some 2))%Z
  ∧ parseJsonStat2 sampleData (Some 2%Z) = Some truncatedTable
  ∧ (truncated truncatedTable = true ↔ 2 < 6).
Proof.
  assert (0 <= default 50 (Some 2))%Z as Hle by (simpl; lia).
  split; [exact Hle|]. split; [exact sampleData_truncated|].
  exact (truncated_iff_rows_dropped sampleData (Some 2%Z) truncatedTable
           Hle sampleData_truncated).
Defined.

Lemma negative_limit_truncated_witness :
  (-1 < 0)%Z
  ∧ ∃ table,
      parseJsonStat2 missingSizeData (Some (-1)%Z) = Some table
      ∧ truncated table = true ∧ rows table = [].
Proof.
  assert (-1 < 0)%Z as Hneg by lia.
  split; [exact Hneg|].
  destruct (parseJsonStat2 missingSizeData (Some (-1)%Z)) as [table|]
    eqn:Hparse; [|vm_compute in Hparse; discriminate Hparse].
  exists table. split; [reflexivity|].
  exact (negative_limit_truncated missingSizeData (-1)%Z table Hneg Hparse).
Defined.

Lemma value_column_witness :
  parseJsonStat2 sampleData (Some 10%Z) = Some sampleTable
  ∧ map (λ row, own row !! "Verdi") (rows sampleTable)
    = [ Some (CNum 1%Z); Some (CNum 2%Z); Some CNull;
        Some (CNum 4%Z); Some (CNum 5%Z); Some (CNum 6%Z) ].
Proof.
  split; [exact sampleData_parses|].
  exact (value_column sampleData (Some 10%Z) sampleTable sampleData_parses).
Defined.

Lemma row_keys_witness :
  parseJsonStat2 sampleData (Some 10%Z) = Some sampleTable
  ∧ sampleRow "2023" "C" CNull ∈ rows sampleTable
  ∧ dom (own (sampleRow "2023" "C" CNull))
    = list_to_set ["year"; "region"; "Verdi"] ∖ {["__proto__"]}.
Proof.
  assert (sampleRow "2023" "C" CNull ∈ rows sampleTable) as Hin.
  { simpl. do 2 right. left. }
  split; [exact sampleData_parses|]. split; [exact Hin|].
  exact (row_keys sampleData (Some 10%Z) sampleTable _ sampleData_parses Hin).
Defined.

Lemma decoded_indices_injective_witness :
  valid_response sampleData
  ∧ 1 < length (data_value sampleData)
  ∧ 4 < length (data_value sampleData)
  ∧ 1 ≠ 4
  ∧ catIndices 2 (computeStrides [2; 3]) 0 (Fin 1)
    ≠ catIndices 2 (computeStrides [2; 3]) 0 (Fin 4).
Proof.
  assert (1 < length (data_value sampleData)) as H1 by (simpl; lia).
  assert (4 < length (data_value sampleData)) as H4 by (simpl; lia).
  assert (1 ≠ 4) as Hne by lia.
  split; [exact sampleData_valid|]. split; [exact H1|]. split; [exact H4|].
  split; [exact Hne|].
  exact (decoded_indices_injective sampleData 1 4 sampleData_valid H1 H4 Hne).
Defined.

Lemma sampleData_arrays :
  Forall2 (λ dimId size,
             ∀ dim codes, data_dimension sampleData !! dimId = Some dim →
                          cat_index (dim_category dim) = IndexArray codes →
                          length codes = size)
          (data_id sampleData) (data_size sampleData).
Proof. repeat constructor; intros dim codes [= <-] [= <-]; reflexivity. Qed.

Lemma labels_resolved_witness :
  valid_response sampleData
  ∧ parseJsonStat2 sampleData (Some 10%Z) = Some sampleTable
  ∧ rows sampleTable !! 4 = Some (sampleRow "2024" "B" (CNum 5%Z))
  ∧ "region" ∈ columns sampleTable
  ∧ ∃ dimId dim c,
      dimId ∈ data_id sampleData
      ∧ data_dimension sampleData !! dimId = Some dim
      ∧ dim_label dim = "region"
      ∧ c ∈ orderedCodes (cat_index (dim_category dim))
      ∧ own (sampleRow "2024" "B" (CNum 5%Z)) !! "region"
        = Some (cellOfLabel (labelOf (cat_label (dim_category dim)) c)).
Proof.
  assert ("region" ∈ columns sampleTable) as Hcol by (simpl; right; left).
  split; [exact sampleData_valid|]. split; [exact sampleData_parses|].
  split; [reflexivity|]. split; [exact Hcol|].
  apply (labels_resolved sampleData (Some 10%Z) sampleTable 4 _ "region"
           sampleData_valid sampleData_arrays sampleData_parses eq_refl Hcol);
    discriminate.
Defined.

Lemma missing_size_placeholder_witness :
  data_id missingSizeData = ["year"] ++ ["region"]
  ∧ (length (data_size missingSizeData) <= length ["year"])%nat
  ∧ ∃ table row,
      parseJsonStat2 missingSizeData (Some 10%Z) = Some table
      ∧ rows table !! 1 = Some row
      ∧ own row !! "region" = Some (CStr "Unknown(NaN)").
Proof.
  split; [reflexivity|]. split; [simpl; lia|].
  destruct (parseJsonStat2 missingSizeData (Some 10%Z)) as [table|]
    eqn:Hparse; [|vm_compute in Hparse; discriminate Hparse].
  destruct (rows table !! 1) as [row|] eqn:Hrow.
  2:{ apply lookup_ge_None in Hrow.
      rewrite (length_rows _ _ _ Hparse) in Hrow. simpl in Hrow. lia. }
  exists table, row. split; [reflexivity|]. split; [exact Hrow|].
  apply (missing_size_placeholder missingSizeData (Some 10%Z) table row
           ["year"] "region" (sampleDimension "region" ["A"; "B"; "C"]));
    [reflexivity | simpl; lia | reflexivity | discriminate | discriminate
     | exact Hparse | by eapply list_elem_of_lookup_2].
Defined.

Lemma inherited_label_witness :
  inheritedLabelDimensions !! "kind" = Some inheritedLabelDimension
  ∧ orderedCodes (cat_index (dim_category inheritedLabelDimension)) !! 0
    = Some "constructor"
  ∧ cat_label (dim_category inheritedLabelDimension) !! "constructor" = None
  ∧ "constructor" ∈ objectPrototypeKeys
  ∧ ∃ d cat,
      buildDimension inheritedLabelDimensions "kind" = Some d
      ∧ categories d !! 0 = Some cat
      ∧ code cat = "constructor"
      ∧ c_label cat = LObject (ObjectMethod "constructor").
Proof.
  assert ("constructor" ∈ objectPrototypeKeys) as Hkey by left.
  split; [reflexivity|]. split; [reflexivity|]. split; [reflexivity|].
  split; [exact Hkey|].
  exact (inherited_label inheritedLabelDimensions "kind"
           inheritedLabelDimension 0 "constructor" eq_refl eq_refl eq_refl
           Hkey).
Defined.

Lemma missing_key_rendering_witness :
  readable_table (extraColumnTable "Merknad")
  ∧ rows (extraColumnTable "Merknad") !! 1
    = Some (sampleRow "2023" "B" (CNum 2%Z))
  ∧ columns (extraColumnTable "Merknad") !! 3 = Some "Merknad"
  ∧ own (sampleRow "2023" "B" (CNum 2%Z)) !! "Merknad" = None
  ∧ prototype (sampleRow "2023" "B" (CNum 2%Z)) = ObjectPrototype
  ∧ (∃ lines, formatLines sampleHost (extraColumnTable "Merknad") = Some lines
        ∧ lines !! 7 = Some "| 2023 | B | 2 | - |")
  ∧ (∃ lines,
        formatLines sampleHost (extraColumnTable "constructor") = Some lines
        ∧ lines !! 7
          = Some "| 2023 | B | 2 | function Object() { [native code] } |")
  ∧ ∃ lines shown,
      ("Merknad" ∉ objectPrototypeKeys → shown = "-")
      ∧ formatLines sampleHost (extraColumnTable "Merknad") = Some lines
      ∧ formatTable sampleHost (extraColumnTable "Merknad")
        = Some (joinBefore (String "010" "") (take 7 lines)
                  +:+ "| 2023 | B | 2 | " +:+ shown +:+ " |"
                  +:+ joinAfter (String "010" "") (drop 8 lines)).
Proof.
  split; [apply extraColumnTable_readable|].
  split; [reflexivity|]. split; [reflexivity|]. split; [reflexivity|].
  split; [reflexivity|].
  split; [eexists; split; vm_compute; reflexivity|].
  split; [eexists; split; vm_compute; reflexivity|].
  destruct (missing_key_rendering sampleHost (extraColumnTable "Merknad") 1
              (sampleRow "2023" "B" (CNum 2%Z)) 3 "Merknad"
              (extraColumnTable_readable "Merknad")
              eq_refl eq_refl eq_refl eq_refl)
    as (lines & cells & shown & Hplain & _ & _ & Hlines & Hcells & _ & Htext).
  exists lines, shown. split; [exact Hplain|]. split; [exact Hlines|].
  vm_compute in Hcells. injection Hcells as <-. exact Htext.
Defined.

Lemma untruncated_ends_with_last_row_witness :
  readable_table sampleTable
  ∧ truncated sampleTable = false
  ∧ last (rows sampleTable) = Some (sampleRow "2024" "C" (CNum 6%Z))
  ∧ ∃ body,
      formatTable sampleHost sampleTable
      = Some (body +:+ String "010" "" +:+ "| 2024 | C | 6 |").
Proof.
  split; [exact sampleTable_readable|].
  split; [reflexivity|]. split; [reflexivity|].
  destruct (untruncated_ends_with_last_row sampleHost sampleTable
              (sampleRow "2024" "C" (CNum 6%Z)) sampleTable_readable
              eq_refl eq_refl) as (body & line & Hline & Htext).
  exists body. vm_compute in Hline. injection Hline as <-. exact Htext.
Defined.

Lemma no_data_rendering_witness :
  ∃ parsed,
    parseJsonStat2 sampleData (Some 0%Z) = Some parsed
    ∧ (formatTable sampleHost parsed
         = Some (join (String "010" "")
                   (headerBlock parsed ++ ["Ingen data funnet."]))
       ↔ data_value sampleData = [] ∨ (default 50%Z (Some 0%Z) <= 0)%Z).
Proof.
  destruct (parseJsonStat2 sampleData (Some 0%Z)) as [parsed|]
    eqn:Hparse; [|vm_compute in Hparse; discriminate Hparse].
  exists parsed. split; [reflexivity|].
  exact (no_data_rendering sampleHost sampleData (Some 0%Z) parsed Hparse).
Defined.

Lemma decoded_rendering_host_independent_witness :
  ∃ table text,
    parseJsonStat2 functionPrototypeData (Some 10%Z) = Some table
    ∧ columns table = ["__proto__"; "Verdi"]
    ∧ formatTable sampleHost table = Some text
    ∧ formatTable {| formatNumber := pretty;
                     nativeFunctionText := sampleNative;
                     functionPropertyText := λ f h, f +:+ "." +:+ h |}
                  table = Some text
    ∧ formatLines sampleHost table
      = Some [ "📊 Befolkning"; "Kilde: SSB"; "Oppdatert: 2024-01-01"; "";
               "| __proto__ | Verdi |"; "| --- | --- |";
               "| function Object() { [native code] } | 7 |" ].
Proof.
  destruct (parseJsonStat2 functionPrototypeData (Some 10%Z)) as [table|]
    eqn:Hparse; [|vm_compute in Hparse; discriminate Hparse].
  destruct (decoded_rendering_host_independent functionPrototypeData
              (Some 10%Z) table sampleHost
              {| formatNumber := pretty;
                 nativeFunctionText := sampleNative;
                 functionPropertyText := λ f h, f +:+ "." +:+ h |}
              Hparse eq_refl eq_refl) as (text & Htext1 & Htext2).
  exists table, text. split; [reflexivity|].
  vm_compute in Hparse. injection Hparse as <-.
  split; [reflexivity|]. split; [exact Htext1|]. split; [exact Htext2|].
  vm_compute. reflexivity.
Defined.

Lemma rendering_throws_iff_unreadable_witness :
  formatTable sampleHost unreadableTable = None
  ∧ rows unreadableTable ≠ []
  ∧ ¬ readable_table unreadableTable.
Proof.
  assert (formatTable sampleHost unreadableTable = None) as Hnone
    by (vm_compute; reflexivity).
  split; [exact Hnone|].
  exact (proj1 (rendering_throws_iff_unreadable sampleHost unreadableTable)
           Hnone).
Defined.

(** The listing of a variable with 23 values reports 3 omitted values
    between the tenth and the eleventh line. *)
Lemma value_listing_long :
  length (valueLines longVariable) = 21
  ∧ valueLines longVariable !! 10
    = Some ("    ... (3 verdier utelatt) ..." +:+ String "010" "")
  ∧ valueLines longVariable !! 11 = Some (valueLine longVariable 13).
Proof. repeat split; vm_compute; reflexivity. Qed.
